(** * ambr.models.abyss: the Spiral Abyss response models

    A shallow embedding of [src/ambr/models/abyss.py] and the properties
    its specification states about it.

    The module declares nine pydantic (v2) models.  A model class is
    embedded as a record together with the function that calling the
    class on the items of a dict runs: field look-up by alias, the
    before-validators of the class, and pydantic's validation of each
    field.

    What the embedding takes from the language and its libraries:
    - Python values are the ones [json.loads] produces, with the numbers
      restricted to Python ints (the wire schema has no fractional
      field).  Strings are byte strings, read as the UTF-8 encoding of
      the Python [str].
    - pydantic runs with its default configuration: lax conversions,
      fields populated by alias only, extra keys ignored, models not
      frozen.  The line errors of all fields of a model and of all items
      of a list are collected.  A [ValueError] raised by a validator
      becomes a line error, a [ValidationError] raised by a validator
      keeps its line errors, and any other exception leaves the
      validation at once.
    - [datetime.fromtimestamp] is CPython's (3.6 and later, which look
      at the local time one day earlier to tell a repeated hour) on a
      platform whose local zone is UTC, whose [time_t] has 64 bits and
      whose [tm_year] is a C [int].
    - [str.format] is embedded for templates whose replacement fields are
      bare argument names.
    - [remove_html_tags] belongs to [ambr/utils.py], whose source is not
      at hand; it is modelled from the specification. *)

From Stdlib Require Import ZArith List String Ascii Bool Lia DecimalString.
Import ListNotations.

Local Open Scope Z_scope.
Local Open Scope list_scope.

Set Implicit Arguments.
Set Warnings "-register-all".

(** ** Python values *)

Module Py.

(** What [json.loads] returns: [None], [bool], [int], [str], [list] and
    [dict].  A dict is kept as the list of its items in insertion order;
    a real dict has pairwise distinct keys ([dict_ok]). *)
Inductive value : Type :=
| VNone
| VBool (b : bool)
| VInt (z : Z)
| VStr (s : string)
| VList (l : list value)
| VDict (items : list (string * value)).

Definition dict := list (string * value).

Definition keys (d : dict) : list string := map fst d.
Definition values (d : dict) : list value := map snd d.

Definition dict_ok (d : dict) : Prop := NoDup (keys d).

(** [d.get(k)] / [d[k]] *)
Fixpoint lookup (k : string) (d : dict) : option value :=
  match d with
  | [] => None
  | (k', v) :: d' => if String.eqb k k' then Some v else lookup k d'
  end.

(** The built-in exceptions the module's code can raise. *)
Inductive exn : Type :=
| TypeError
| ValueError
| IndexError
| KeyError
| OverflowError
| OSError.

(** *** Strings *)

Definition str_of_int (z : Z) : string := NilZero.string_of_int (Z.to_int z).

(** [sep.join(parts)] *)
Definition join (sep : string) (parts : list string) : string :=
  String.concat sep parts.

(** [needle in hay] on two strings: some suffix of [hay] starts with
    [needle]. *)
Fixpoint contains (needle hay : string) : bool :=
  String.prefix needle hay
  || match hay with
     | EmptyString => false
     | String _ hay' => contains needle hay'
     end.

Definition is_digit (c : ascii) : bool :=
  let n := N_of_ascii c in (48 <=? n)%N && (n <=? 57)%N.

Definition is_ascii (c : ascii) : bool := (N_of_ascii c <? 128)%N.

Fixpoint forallb_str (p : ascii -> bool) (s : string) : bool :=
  match s with
  | EmptyString => true
  | String c s' => p c && forallb_str p s'
  end.

Fixpoint digits_value (acc : Z) (s : string) : Z :=
  match s with
  | String c s' => digits_value (10 * acc + Z.of_N (N_of_ascii c - 48)) s'
  | EmptyString => acc
  end.

Definition hex_digit (n : N) : ascii :=
  ascii_of_N (if (n <? 10)%N then 48 + n else 87 + n)%N.

Definition hex_escape (n : N) : string :=
  String "\" (String "x" (String (hex_digit (n / 16)) (String (hex_digit (n mod 16)) EmptyString))).

(** [repr] of one character of a [str] that is one byte long. *)
Definition repr_char (quote : ascii) (c : ascii) : string :=
  let n := N_of_ascii c in
  if Ascii.eqb c quote then String "\" (String c EmptyString)
  else if Ascii.eqb c "\" then "\\"
  else if (n =? 9)%N then "\t"
  else if (n =? 10)%N then "\n"
  else if (n =? 13)%N then "\r"
  else if (n <? 32)%N || (n =? 127)%N then hex_escape n
  else String c EmptyString.

(** The characters U+0080 to U+00A0 and U+00AD, the ones up to U+00FF
    that are not printable: in UTF-8 the byte 194 and the code point. *)
Definition is_hidden (c1 c2 : ascii) : bool :=
  let n := N_of_ascii c2 in
  (N_of_ascii c1 =? 194)%N && (((128 <=? n) && (n <=? 160)) || (n =? 173))%N.

(** [repr] of the characters of a [str], exact up to U+00FF; a character
    beyond is kept, as Python keeps every printable character. *)
Fixpoint repr_body (quote : ascii) (s : string) : string :=
  match s with
  | EmptyString => EmptyString
  | String c s' =>
      match s' with
      | String c' s'' =>
          if is_hidden c c' then (hex_escape (N_of_ascii c') ++ repr_body quote s'')%string
          else (repr_char quote c ++ repr_body quote s')%string
      | EmptyString => repr_char quote c
      end
  end.

Definition has_char (c : ascii) (s : string) : bool :=
  negb (forallb_str (fun c' => negb (Ascii.eqb c' c)) s).

Definition dquote : ascii := ascii_of_N 34.

Definition repr_str (s : string) : string :=
  let quote : ascii :=
    if has_char "'" s && negb (has_char dquote s) then dquote else "'"%char in
  String quote (repr_body quote s ++ String quote EmptyString)%string.

(** [repr(v)]; [str(v)] differs from it on strings only. *)
Fixpoint repr (v : value) : string :=
  match v with
  | VNone => "None"
  | VBool true => "True"
  | VBool false => "False"
  | VInt z => str_of_int z
  | VStr s => repr_str s
  | VList l => ("[" ++ join ", " (map repr l) ++ "]")%string
  | VDict d =>
      ("{" ++ join ", " (map (fun kv => (repr_str (fst kv) ++ ": " ++ repr (snd kv))%string) d)
           ++ "}")%string
  end.

Definition str (v : value) : string :=
  match v with
  | VStr s => s
  | _ => repr v
  end.

(** *** Truth value, membership, iteration, subscription *)

(** [bool(v)], the test of [if v]. *)
Definition truthy (v : value) : bool :=
  match v with
  | VNone => false
  | VBool b => b
  | VInt z => negb (z =? 0)
  | VStr s => negb (String.eqb s "")
  | VList l => match l with [] => false | _ => true end
  | VDict d => match d with [] => false | _ => true end
  end.

(** [x == s] for a string [s]. *)
Definition eq_str (s : string) (x : value) : bool :=
  match x with
  | VStr s' => String.eqb s s'
  | _ => false
  end.

(** [s in v] for a string [s]: substring of a string, element of a list,
    key of a dict; [None], a bool or an int is not a container. *)
Definition str_in (s : string) (v : value) : exn + bool :=
  match v with
  | VStr hay => inr (contains s hay)
  | VList l => inr (existsb (eq_str s) l)
  | VDict d => inr (existsb (String.eqb s) (keys d))
  | _ => inl TypeError
  end.

(** Iterating a [str] yields its characters: a UTF-8 continuation byte
    ([0b10xxxxxx]) stays with the byte before it. *)
Definition is_continuation (c : ascii) : bool :=
  let n := N_of_ascii c in (128 <=? n)%N && (n <? 192)%N.

Fixpoint chars (s : string) : list string :=
  match s with
  | EmptyString => []
  | String c s' =>
      match chars s' with
      | String c' g :: gs =>
          if is_continuation c' then String c (String c' g) :: gs
          else String c EmptyString :: String c' g :: gs
      | gs => String c EmptyString :: gs
      end
  end.

(** [for x in v]: the keys of a dict, the elements of a list, the
    characters of a string. *)
Definition iter (v : value) : exn + list value :=
  match v with
  | VDict d => inr (map VStr (keys d))
  | VList l => inr l
  | VStr s => inr (map VStr (chars s))
  | _ => inl TypeError
  end.

(** [seq[i]] with Python's negative indices. *)
Definition index {A : Type} (l : list A) (i : Z) : option A :=
  let n := Z.of_nat (List.length l) in
  if (0 <=? i) && (i <? n) then nth_error l (Z.to_nat i)
  else if (- n <=? i) && (i <? 0) then nth_error l (Z.to_nat (i + n))
  else None.

Definition as_index (i : value) : option Z :=
  match i with
  | VInt z => Some z
  | VBool b => Some (if b then 1 else 0)
  | _ => None
  end.

(** [v[i]] *)
Definition getitem (v i : value) : exn + value :=
  match v with
  | VDict d =>
      match i with
      | VStr k => match lookup k d with Some x => inr x | None => inl KeyError end
      | VList _ | VDict _ => inl TypeError
      | _ => inl KeyError
      end
  | VList l =>
      match as_index i with
      | Some z => match index l z with Some x => inr x | None => inl IndexError end
      | None => inl TypeError
      end
  | VStr s =>
      match as_index i with
      | Some z => match index (chars s) z with Some c => inr (VStr c) | None => inl IndexError end
      | None => inl TypeError
      end
  | _ => inl TypeError
  end.

(** *** [str.format] with one positional argument

    The format string is read as [MarkupIterator] reads it: literal text,
    the escapes of a doubled brace, and replacement fields.  A field is
    modelled when it is a bare argument name: empty (automatic
    numbering), decimal digits (an index) or any other ASCII name (a
    keyword).  A field with an attribute or an index, a conversion or a
    format specification, or a name with a non-ASCII character, is
    outside the model: the result is [None] from there on. *)

Inductive numbering : Type :=
| Unset
| Auto (next : nat)
| Manual.

Inductive markup : Type :=
| Text
| Open
| Close
| Field (name : string).

Definition PY_SSIZE_T_MAX : Z := 2 ^ 63 - 1.

(** The argument a field names, among the one positional argument
    [arg] and no keyword argument. *)
Definition get_field (arg : string) (num : numbering) (name : string)
    : exn + (string * numbering) :=
  let positional (i : Z) (num' : numbering) :=
    if i =? 0 then inr (arg, num') else inl IndexError in
  match name with
  | EmptyString =>
      match num with
      | Manual => inl ValueError
      | Unset => positional 0 (Auto 1)
      | Auto n => positional (Z.of_nat n) (Auto (S n))
      end
  | _ =>
      if forallb_str is_digit name then
        let i := digits_value 0 name in
        if PY_SSIZE_T_MAX <? i then inl ValueError
        else match num with
             | Auto _ => inl ValueError
             | _ => positional i Manual
             end
      else inl KeyError
  end.

Definition emit (text : string) (r : option (exn + string)) : option (exn + string) :=
  match r with
  | Some (inr out) => Some (inr (text ++ out)%string)
  | _ => r
  end.

Definition in_fragment (c : ascii) : bool :=
  is_ascii c
  && negb (existsb (Ascii.eqb c) ["["; "."; ":"; "!"]%char).

Fixpoint format_from (arg : string) (st : markup) (num : numbering) (s : string)
    : option (exn + string) :=
  match s with
  | EmptyString =>
      match st with
      | Text => Some (inr EmptyString)
      | _ => Some (inl ValueError)
      end
  | String c s' =>
      let field (name : string) :=
        if Ascii.eqb c "}" then
          match get_field arg num name with
          | inr (text, num') => emit text (format_from arg Text num' s')
          | inl e => Some (inl e)
          end
        else if Ascii.eqb c "{" then Some (inl ValueError)
        else if in_fragment c then
          format_from arg (Field (name ++ String c EmptyString)) num s'
        else None in
      match st with
      | Text =>
          if Ascii.eqb c "{" then format_from arg Open num s'
          else if Ascii.eqb c "}" then format_from arg Close num s'
          else emit (String c EmptyString) (format_from arg Text num s')
      | Open =>
          if Ascii.eqb c "{" then emit "{" (format_from arg Text num s')
          else field EmptyString
      | Close =>
          if Ascii.eqb c "}" then emit "}" (format_from arg Text num s')
          else Some (inl ValueError)
      | Field name => field name
      end
  end.

(** [template.format(arg)] *)
Definition format (template arg : string) : option (exn + string) :=
  format_from arg Text Unset template.

End Py.

(** ** The standard library's datetime *)

Module Datetime.
Import Py.

(** A naive [datetime.datetime].  The local zone of the interpreter is
    taken to be UTC, so the fields are the civil date and time of the
    POSIX second; no hour is repeated and [fold] is always 0. *)
Record datetime : Type := mk_datetime {
  year : Z;
  month : Z;
  day : Z;
  hour : Z;
  minute : Z;
  second : Z;
  microsecond : Z
}.

Definition MINYEAR : Z := 1.
Definition MAXYEAR : Z := 9999.

(** The proleptic Gregorian date of a day number counted from
    1970-01-01. *)
Definition civil_from_days (days : Z) : Z * Z * Z :=
  let z := days + 719468 in
  let era := z / 146097 in
  let doe := z - era * 146097 in
  let yoe := (doe - doe / 1460 + doe / 36524 - doe / 146096) / 365 in
  let y := yoe + era * 400 in
  let doy := doe - (365 * yoe + yoe / 4 - yoe / 100) in
  let mp := (5 * doy + 2) / 153 in
  let d := doy - (153 * mp + 2) / 5 + 1 in
  let m := if mp <? 10 then mp + 3 else mp - 9 in
  (if m <=? 2 then y + 1 else y, m, d).

(** The broken-down time of [localtime]. *)
Definition of_posix (t : Z) : datetime :=
  let '(y, m, d) := civil_from_days (t / 86400) in
  let s := t mod 86400 in
  mk_datetime y m d (s / 3600) (s mod 3600 / 60) (s mod 60) 0.

Definition epoch : datetime := mk_datetime 1970 1 1 0 0 0 0.

(** *** The calendar arithmetic of the datetime module *)

Definition is_leap (y : Z) : bool :=
  (y mod 4 =? 0) && (negb (y mod 100 =? 0) || (y mod 400 =? 0)).

Definition days_before_year (y : Z) : Z :=
  let y' := y - 1 in y' * 365 + y' / 4 - y' / 100 + y' / 400.

Definition _days_before_month (m : Z) : Z :=
  match m with
  | 1 => 0 | 2 => 31 | 3 => 59 | 4 => 90 | 5 => 120 | 6 => 151
  | 7 => 181 | 8 => 212 | 9 => 243 | 10 => 273 | 11 => 304 | 12 => 334
  | _ => 0
  end.

Definition days_before_month (y m : Z) : Z :=
  _days_before_month m + (if (2 <? m) && is_leap y then 1 else 0).

Definition days_in_month (y m : Z) : Z :=
  match m with
  | 2 => if is_leap y then 29 else 28
  | 4 | 6 | 9 | 11 => 30
  | _ => 31
  end.

(** The ordinal of a date, 0001-01-01 being day 1. *)
Definition ymd_to_ord (y m d : Z) : Z :=
  days_before_year y + days_before_month y m + d.

(** Seconds from 0001-01-01T00:00:00 to the POSIX epoch. *)
Definition epoch_seconds : Z := 719163 * 24 * 60 * 60.

Definition max_fold_seconds : Z := 24 * 3600.

Definition ebind {A B : Type} (r : exn + A) (k : A -> exn + B) : exn + B :=
  match r with
  | inr a => k a
  | inl e => inl e
  end.

Notation "x <-! r ;; k" := (ebind r (fun x => k))
  (at level 61, r at next level, right associativity).

(** The seconds since 0001-01-01T00:00:00 of a broken-down time; the
    year must be one a [datetime] holds. *)
Definition utc_to_seconds (tm : datetime) : exn + Z :=
  if (MINYEAR <=? year tm) && (year tm <=? MAXYEAR)
  then inr (((ymd_to_ord (year tm) (month tm) (day tm) * 24 + hour tm) * 60 + minute tm) * 60
            + second tm)
  else inl ValueError.

(** A number of seconds as a [time_t] of 64 bits. *)
Definition as_time_t (u : Z) : exn + Z :=
  if (- 2 ^ 63 <=? u) && (u <? 2 ^ 63) then inr u else inl OverflowError.

(** [localtime]: it fails when [tm_year], an [int], cannot hold the
    year. *)
Definition localtime (t : Z) : exn + datetime :=
  let tm := of_posix t in
  if (- 2 ^ 31 <=? year tm - 1900) && (year tm - 1900 <? 2 ^ 31) then inr tm
  else inl OSError.

(** The local time of [u], both counted in seconds from
    0001-01-01T00:00:00. *)
Definition local (u : Z) : exn + Z :=
  t <-! as_time_t (u - epoch_seconds) ;;
  tm <-! localtime t ;;
  utc_to_seconds tm.

(** [datetime.datetime.fromtimestamp(v)] for a naive local time:
    [TypeError] on anything that is not a number and [OverflowError]
    outside [time_t]; then the broken-down local time, whose year must
    be in [MINYEAR..MAXYEAR], and, to tell a repeated hour, the local
    time [max_fold_seconds] earlier, which must have such a year too
    ([ValueError] otherwise). *)
Definition fromtimestamp (v : value) : exn + datetime :=
  match as_index v with
  | None => inl TypeError
  | Some n =>
      timet <-! as_time_t n ;;
      tm <-! localtime timet ;;
      result_seconds <-! utc_to_seconds tm ;;
      probe_seconds <-! local (epoch_seconds + timet - max_fold_seconds) ;;
      let transition := result_seconds - probe_seconds - max_fold_seconds in
      _ <-! (if transition <? 0 then local (epoch_seconds + timet + transition)
             else inr probe_seconds) ;;
      inr tm
  end.

(** The timestamps from 0001-01-02T00:00:00 to 9999-12-31T23:59:59. *)
Definition in_range (t : Z) : bool :=
  (-62135510400 <=? t) && (t <=? 253402300799).

End Datetime.

(** ** pydantic *)

Module Pydantic.
Import Py.

(** *** Validation errors *)

Inductive loc_item : Type :=
| Key (name : string)
| Idx (i : nat).

Inductive error_type : Type :=
| missing
| string_type
| int_type
| int_parsing
| int_parsing_size
| bool_type
| bool_parsing
| list_type
| model_type
| value_error
| frozen_instance.

(** One entry of [ValidationError.errors()]: where, and what. *)
Record line_error : Type := mk_error {
  loc : list loc_item;
  kind : error_type
}.

(** The outcome of validating, or of Python code that calls a model
    class: a value, a [ValidationError] with its line errors, or another
    exception, which pydantic does not catch. *)
Inductive result (A : Type) : Type :=
| Ok (a : A)
| Invalid (errors : list line_error)
| Raised (e : exn).

Arguments Invalid {A} errors.
Arguments Raised {A} e.

Definition is_ok {A : Type} (r : result A) : bool :=
  match r with
  | Ok _ => true
  | _ => false
  end.

(** Sequencing of Python statements: the first exception ends the
    computation. *)
Definition bind {A B : Type} (r : result A) (k : A -> result B) : result B :=
  match r with
  | Ok a => k a
  | Invalid errs => Invalid errs
  | Raised e => Raised e
  end.

(** The fields of a model and the items of a list are all validated and
    their line errors collected; any other exception aborts the
    validation at once. *)
Definition ap {A B : Type} (rf : result (A -> B)) (ra : result A) : result B :=
  match rf, ra with
  | Raised e, _ => Raised e
  | _, Raised e => Raised e
  | Ok f, Ok a => Ok (f a)
  | Ok _, Invalid errs => Invalid errs
  | Invalid errs, Ok _ => Invalid errs
  | Invalid errs1, Invalid errs2 => Invalid (errs1 ++ errs2)
  end.

Notation "x <- r ;; k" := (bind r (fun x => k))
  (at level 61, r at next level, right associativity).
Notation "f <$> r" := (ap (Ok f) r) (at level 59, left associativity).
Notation "rf <*> r" := (ap rf r) (at level 59, left associativity).

Definition prefix_loc (i : loc_item) (e : line_error) : line_error :=
  mk_error (i :: loc e) (kind e).

(** [with_outer_location] *)
Definition with_loc {A : Type} (i : loc_item) (r : result A) : result A :=
  match r with
  | Invalid errs => Invalid (map (prefix_loc i) errs)
  | _ => r
  end.

Definition fail {A : Type} (k : error_type) : result A :=
  Invalid [mk_error [] k].

(** The outcome of a validator function's Python code: a [ValueError]
    becomes a line error, any other exception goes through. *)
Definition python {A : Type} (r : exn + A) : result A :=
  match r with
  | inr a => Ok a
  | inl ValueError => fail value_error
  | inl e => Raised e
  end.

(** *** Fields *)

(** [Field(..., alias=a)]: looked up by alias only; absent, the line
    error [missing] at [(a,)]. *)
Definition required {A : Type} (d : dict) (alias : string)
    (validate : value -> result A) : result A :=
  match lookup alias d with
  | Some v => with_loc (Key alias) (validate v)
  | None => with_loc (Key alias) (fail missing)
  end.

(** [Field(default, alias=a)]: absent, the default, which is not
    validated and does not go through the field's validators. *)
Definition defaulted {A : Type} (d : dict) (alias : string) (default : A)
    (validate : value -> result A) : result A :=
  match lookup alias d with
  | Some v => with_loc (Key alias) (validate v)
  | None => Ok default
  end.

(** *** Lax validation of the annotated types *)

(** The characters Rust's [str::trim] removes, the ones with the
    Unicode property White_Space, in UTF-8. *)
Definition bytes (l : list N) : string :=
  fold_right (fun n s => String (ascii_of_N n) s) EmptyString l.

Definition white_space : list string :=
  map bytes
    [[9]; [10]; [11]; [12]; [13]; [32]; [194; 133]; [194; 160]; [225; 154; 128];
     [226; 128; 128]; [226; 128; 129]; [226; 128; 130]; [226; 128; 131]; [226; 128; 132];
     [226; 128; 133]; [226; 128; 134]; [226; 128; 135]; [226; 128; 136]; [226; 128; 137];
     [226; 128; 138]; [226; 128; 168]; [226; 128; 169]; [226; 128; 175]; [226; 129; 159];
     [227; 128; 128]]%N.

Fixpoint strip_prefix (p s : string) : option string :=
  match p, s with
  | EmptyString, _ => Some s
  | String a p', String b s' => if Ascii.eqb a b then strip_prefix p' s' else None
  | String _ _, EmptyString => None
  end.

Fixpoint strip_any (ps : list string) (s : string) : option string :=
  match ps with
  | [] => None
  | p :: ps' => match strip_prefix p s with Some r => Some r | None => strip_any ps' s end
  end.

Fixpoint strip_all (fuel : nat) (ps : list string) (s : string) : string :=
  match fuel with
  | O => s
  | S fuel' => match strip_any ps s with Some r => strip_all fuel' ps r | None => s end
  end.

Fixpoint reverse (acc s : string) : string :=
  match s with
  | EmptyString => acc
  | String c s' => reverse (String c acc) s'
  end.

Definition lstrip (s : string) : string := strip_all (String.length s) white_space s.

Definition rstrip (s : string) : string :=
  let r := reverse EmptyString s in
  reverse EmptyString
    (strip_all (String.length s) (map (reverse EmptyString) white_space) r).

Definition trim (s : string) : string := lstrip (rstrip s).

Definition unsigned_as_int (s : string) : option Z :=
  match s with
  | EmptyString => None
  | _ => if forallb_str is_digit s then Some (digits_value 0 s) else None
  end.

(** Rust's [str::parse] to an integer: an optional sign and decimal
    digits. *)
Definition parse_int (s : string) : option Z :=
  match s with
  | String "-" s' => option_map Z.opp (unsigned_as_int s')
  | String "+" s' => unsigned_as_int s'
  | s' => unsigned_as_int s'
  end.

Fixpoint split_at (c : ascii) (s : string) : option (string * string) :=
  match s with
  | EmptyString => None
  | String x s' =>
      if Ascii.eqb x c then Some (EmptyString, s')
      else option_map (fun ab => (String x (fst ab), snd ab)) (split_at c s')
  end.

(** What stands before the first dot, when only zeros follow it. *)
Definition strip_decimal_zeros (s : string) : option string :=
  match split_at "." s with
  | Some (whole, decimals) =>
      if forallb_str (Ascii.eqb "0") decimals then Some whole else None
  | None => None
  end.

Fixpoint remove (c : ascii) (s : string) : string :=
  match s with
  | EmptyString => EmptyString
  | String x s' => if Ascii.eqb x c then remove c s' else String x (remove c s')
  end.

(** The string without its underscores, when it has some, none of them
    first, last or doubled. *)
Definition strip_underscores (s : string) : option string :=
  if String.prefix "_" s || String.prefix "_" (reverse EmptyString s)
     || negb (has_char "_" s) || contains "__" s
  then None
  else Some (remove "_" s).

(** pydantic-core's [str_as_int] on a trimmed string of at most 4300
    bytes: the string as it is, or else without its decimal zeros, or
    else without its underscores, must parse. *)
Definition clean_as_int (s : string) : option Z :=
  match parse_int s with
  | Some z => Some z
  | None =>
      match strip_decimal_zeros s with
      | Some whole => parse_int whole
      | None =>
          match strip_underscores s with
          | Some digits => parse_int digits
          | None => None
          end
      end
  end.

Definition str_as_int (s : string) : option Z := clean_as_int (trim s).

(** The longest string taken for an int, in bytes: Python's default
    [sys.int_info.max_str_digits]. *)
Definition max_str_digits : N := 4300.

Definition lower (c : ascii) : ascii :=
  let n := N_of_ascii c in
  if (65 <=? n)%N && (n <=? 90)%N then ascii_of_N (n + 32) else c.

Fixpoint lowercase (s : string) : string :=
  match s with
  | String c s' => String (lower c) (lowercase s')
  | EmptyString => EmptyString
  end.

Definition str_as_bool (s : string) : option bool :=
  let l := lowercase s in
  if existsb (String.eqb l) ["0"; "off"; "f"; "false"; "n"; "no"]%string then Some false
  else if existsb (String.eqb l) ["1"; "on"; "t"; "true"; "y"; "yes"]%string then Some true
  else None.

(** [str] *)
Definition v_str (v : value) : result string :=
  match v with
  | VStr s => Ok s
  | _ => fail string_type
  end.

(** [int] *)
Definition v_int (v : value) : result Z :=
  match v with
  | VInt z => Ok z
  | VBool b => Ok (if b then 1 else 0)
  | VStr s =>
      if (max_str_digits <? N.of_nat (String.length (trim s)))%N then fail int_parsing_size
      else match str_as_int s with Some z => Ok z | None => fail int_parsing end
  | _ => fail int_type
  end.

(** [bool] *)
Definition v_bool (v : value) : result bool :=
  match v with
  | VBool b => Ok b
  | VInt 0 => Ok false
  | VInt 1 => Ok true
  | VInt _ => fail bool_parsing
  | VStr s => match str_as_bool s with Some b => Ok b | None => fail bool_parsing end
  | _ => fail bool_type
  end.

Fixpoint v_items {A : Type} (validate : value -> result A) (i : nat) (l : list value)
    : result (list A) :=
  match l with
  | [] => Ok []
  | x :: l' => cons <$> with_loc (Idx i) (validate x) <*> v_items validate (S i) l'
  end.

(** [List[T]] *)
Definition v_list {A : Type} (validate : value -> result A) (v : value) : result (list A) :=
  match v with
  | VList l => v_items validate 0 l
  | _ => fail list_type
  end.

(** [Optional[T]] *)
Definition v_optional {A : Type} (validate : value -> result A) (v : value)
    : result (option A) :=
  match v with
  | VNone => Ok None
  | _ => Some <$> validate v
  end.

(** A field annotated with a model class takes a dict. *)
Definition v_model {A : Type} (validate : dict -> result A) (v : value) : result A :=
  match v with
  | VDict d => validate d
  | _ => fail model_type
  end.

(** *** Python code around the models *)

(** [Cls] called on the unpacked items of [x]: unpacking needs a
    mapping. *)
Definition call {A : Type} (validate : dict -> result A) (x : value) : result A :=
  match x with
  | VDict d => validate d
  | _ => Raised TypeError
  end.

Fixpoint for_each {A B : Type} (body : A -> result B) (l : list A) : result (list B) :=
  match l with
  | [] => Ok []
  | x :: l' => y <- body x ;; ys <- for_each body l' ;; Ok (y :: ys)
  end.

(** *** Configuration and assignment *)

Record ConfigDict : Type := mk_config {
  frozen : bool
}.

(** [BaseModel.model_config] when a class sets none. *)
Definition default_config : ConfigDict := mk_config false.

(** [self.name = v] on an instance of a model with configuration [cfg],
    where [update] is the store into the field [name]. *)
Definition setattr {T V : Type} (cfg : ConfigDict) (name : string)
    (update : V -> T -> T) (self : T) (v : V) : result T :=
  if frozen cfg then with_loc (Key name) (fail frozen_instance) else Ok (update v self).

(** A [mode="before"] validator [f] in front of the validation of the
    field's annotated type.  The line errors of a [ValidationError]
    that [f] raises stay as they are; the field puts its location in
    front of them. *)
Definition before {X A : Type} (f : value -> result X) (validate : X -> result A)
    (v : value) : result A :=
  x <- f v ;; validate x.

(** An instance of the annotated type is valid as it is. *)
Definition v_instance {A : Type} (a : A) : result A := Ok a.

End Pydantic.

(** ** ambr.utils *)

Module Utils.
Import Py.

(** Modelled from the spec: [remove_html_tags] of [ambr/utils.py], which
    is not among the sources.  The specification has it remove every
    substring that matches an HTML tag pattern, a ["<"], any characters
    and the next [">"], and leave all other text untouched.  Reading
    left to right, [tag] holds the text since an unclosed ["<"]; a
    ["<"] that no [">"] follows is no tag and stays. *)
Fixpoint strip_from (tag : option string) (s : string) : string :=
  match s with
  | EmptyString =>
      match tag with
      | Some t => t
      | None => EmptyString
      end
  | String c s' =>
      match tag with
      | None =>
          if Ascii.eqb c "<" then strip_from (Some "<"%string) s'
          else String c (strip_from None s')
      | Some t =>
          if Ascii.eqb c ">" then strip_from None s'
          else strip_from (Some (t ++ String c EmptyString)%string) s'
      end
  end.

Definition strip_tags (text : string) : string := strip_from None text.

(** Modelled from the spec: the function as the validators call it, on
    any value; a regular-expression substitution needs a string. *)
Definition remove_html_tags (text : value) : exn + value :=
  match text with
  | VStr s => inr (VStr (strip_tags s))
  | _ => inl TypeError
  end.

End Utils.

(** ** ambr.models.abyss *)

Module Models.
Import Py Pydantic Datetime.

Module Blessing.
Record t : Type := mk {
  description : string;
  level_config_name : string;
  visible : bool
}.

(** The class sets no [model_config]. *)
Definition model_config : ConfigDict := default_config.

Definition _format_description (v : value) : result value :=
  python (Utils.remove_html_tags v).

Definition validate (d : dict) : result t :=
  mk <$> required d "description" (before _format_description v_str)
     <*> required d "levelConfigName" v_str
     <*> required d "visible" v_bool.
End Blessing.

Module ChallengeTarget.
Record t : Type := mk {
  type : string;
  values : list Z
}.

Definition model_config : ConfigDict := default_config.

Definition validate (d : dict) : result t :=
  mk <$> required d "type" v_str
     <*> required d "values" (v_list v_int).

(** The property [formatted]; [None] when the template leaves the
    modelled part of [str.format]. *)
Definition formatted (self : t) : option (exn + string) :=
  format (type self) (join "/" (map str_of_int (values self))).
End ChallengeTarget.

Module Chamber.
Record t : Type := mk {
  id : Z;
  challenge_target : ChallengeTarget.t;
  enemy_level : Z;
  wave_one_enemies : list Z;
  wave_two_enemies : option (list Z)
}.

Definition model_config : ConfigDict := default_config.

Definition validate (d : dict) : result t :=
  mk <$> required d "id" v_int
     <*> required d "challengeTarget" (v_model ChallengeTarget.validate)
     <*> required d "monsterLevel" v_int
     <*> required d "firstMonsterList" (v_list v_int)
     <*> defaulted d "secondMonsterList" None (v_optional (v_list v_int)).
End Chamber.

Module LeyLineDisorder.
Record t : Type := mk {
  description : string;
  level_config_name : string;
  visible : bool
}.

Definition model_config : ConfigDict := default_config.

Definition _format_description (v : value) : result value :=
  python (Utils.remove_html_tags v).

Definition validate (d : dict) : result t :=
  mk <$> required d "description" (before _format_description v_str)
     <*> required d "levelConfigName" v_str
     <*> required d "visible" v_bool.
End LeyLineDisorder.

Module Floor.
Record t : Type := mk {
  id : Z;
  chambers : list Chamber.t;
  ley_line_disorders : list LeyLineDisorder.t;
  override_enemy_level : Z;
  team_num : Z
}.

Definition model_config : ConfigDict := default_config.

Definition validate (d : dict) : result t :=
  mk <$> required d "id" v_int
     <*> required d "chamberList" (v_list (v_model Chamber.validate))
     <*> required d "leyLineDisorder" (v_list (v_model LeyLineDisorder.validate))
     <*> required d "overrideMonsterLevel" v_int
     <*> required d "teamNum" v_int.
End Floor.

Module AbyssData.
Record t : Type := mk {
  open_time : option datetime;
  floors : list Floor.t
}.

Definition model_config : ConfigDict := default_config.

Definition _format_open_time (v : value) : result (option datetime) :=
  if truthy v then dt <- python (fromtimestamp v) ;; Ok (Some dt) else Ok None.

Definition validate (d : dict) : result t :=
  mk <$> defaulted d "openTime" None (before _format_open_time v_instance)
     <*> required d "floorList" (v_list (v_model Floor.validate)).
End AbyssData.

Module Abyss.
Record t : Type := mk {
  id : Z;
  close_time : datetime;
  blessing : Blessing.t;
  abyss_corridor : AbyssData.t;
  abyssal_moon_spire : AbyssData.t
}.

Definition model_config : ConfigDict := default_config.

Definition _format_close_time (v : value) : result datetime :=
  python (fromtimestamp v).

Definition validate (d : dict) : result t :=
  mk <$> required d "id" v_int
     <*> required d "closeTime" (before _format_close_time v_instance)
     <*> required d "blessing" (v_model Blessing.validate)
     <*> required d "entrance" (v_model AbyssData.validate)
     <*> required d "schedule" (v_model AbyssData.validate).
End Abyss.

Module AbyssEnemy.
Record t : Type := mk {
  icon : string;
  id : Z;
  link : bool;
  name : string
}.

Definition model_config : ConfigDict := default_config.

Definition _convert_icon_url (v : value) : result value :=
  has_monster <- python (str_in "MonsterIcon" v) ;;
  Ok (VStr ("https://api.ambr.top/assets/UI"
            ++ (if has_monster : bool then "/monster" else "")
            ++ "/" ++ str v ++ ".png")%string).

Definition validate (d : dict) : result t :=
  mk <$> required d "icon" (before _convert_icon_url v_str)
     <*> required d "id" v_int
     <*> required d "link" v_bool
     <*> required d "name" v_str.
End AbyssEnemy.

Module AbyssResponse.
Record t : Type := mk {
  enemies : list AbyssEnemy.t;
  abyss_items : list Abyss.t
}.

Definition model_config : ConfigDict := default_config.

Definition _convert_enemies (v : value) : result (list AbyssEnemy.t) :=
  item_ids <- python (iter v) ;;
  for_each (fun item_id => x <- python (getitem v item_id) ;;
                           call AbyssEnemy.validate x) item_ids.

Definition _convert_abyss_items (v : value) : result (list Abyss.t) :=
  item_ids <- python (iter v) ;;
  for_each (fun item_id => x <- python (getitem v item_id) ;;
                           call Abyss.validate x) item_ids.

Definition validate (d : dict) : result t :=
  mk <$> required d "monsterList" (before _convert_enemies v_instance)
     <*> required d "items" (before _convert_abyss_items v_instance).

(** The top-level parse: the class called on the decoded response. *)
Definition parse (data : value) : result t := call validate data.
End AbyssResponse.

End Models.

(** ** The wire schema and the documented transforms

    The specification's side of the parse, written from its sections 3,
    4.1 and 6 and not from the code: what a response that matches the
    wire schema is ([Wire.decode_response] reads one, strictly), and the
    object graph the specification assigns to it ([Spec.response]). *)

Module Wire.
Import Py.

Record enemy : Type := mk_enemy {
  icon : string;
  enemy_id : Z;
  link : bool;
  name : string
}.

(** The wire shape of a blessing and of a ley line disorder. *)
Record effect : Type := mk_effect {
  description : string;
  levelConfigName : string;
  visible : bool
}.

Record challenge_target : Type := mk_challenge_target {
  type : string;
  values : list Z
}.

Record chamber : Type := mk_chamber {
  chamber_id : Z;
  challengeTarget : challenge_target;
  monsterLevel : Z;
  firstMonsterList : list Z;
  secondMonsterList : option (list Z)
}.

Record floor : Type := mk_floor {
  floor_id : Z;
  chamberList : list chamber;
  leyLineDisorder : list effect;
  overrideMonsterLevel : Z;
  teamNum : Z
}.

Record schedule : Type := mk_schedule {
  openTime : option Z;
  floorList : list floor
}.

Record cycle : Type := mk_cycle {
  cycle_id : Z;
  closeTime : Z;
  blessing : effect;
  entrance : schedule;
  schedule_ : schedule
}.

(** Both top-level fields are mappings keyed by opaque strings. *)
Record response : Type := mk_response {
  monsterList : list (string * enemy);
  items : list (string * cycle)
}.

Definition obind {A B : Type} (o : option A) (k : A -> option B) : option B :=
  match o with
  | Some a => k a
  | None => None
  end.

Notation "x <-? o ;; k" := (obind o (fun x => k))
  (at level 61, o at next level, right associativity).

Fixpoint all_some {A B : Type} (f : A -> option B) (l : list A) : option (list B) :=
  match l with
  | [] => Some []
  | x :: l' => y <-? f x ;; ys <-? all_some f l' ;; Some (y :: ys)
  end.

Definition as_str (v : value) : option string :=
  match v with VStr s => Some s | _ => None end.
Definition as_int (v : value) : option Z :=
  match v with VInt z => Some z | _ => None end.
Definition as_bool (v : value) : option bool :=
  match v with VBool b => Some b | _ => None end.
Definition as_list {A : Type} (item : value -> option A) (v : value) : option (list A) :=
  match v with VList l => all_some item l | _ => None end.
Definition as_object {A : Type} (read : dict -> option A) (v : value) : option A :=
  match v with VDict d => read d | _ => None end.

Fixpoint distinct (l : list string) : bool :=
  match l with
  | [] => true
  | k :: l' => negb (existsb (String.eqb k) l') && distinct l'
  end.

(** A mapping from string keys: an object with pairwise distinct keys. *)
Definition as_mapping {A : Type} (item : value -> option A) (v : value)
    : option (list (string * A)) :=
  match v with
  | VDict d =>
      if distinct (keys d)
      then all_some (fun kv => x <-? item (snd kv) ;; Some (fst kv, x)) d
      else None
  | _ => None
  end.

(** A required field. *)
Definition field {A : Type} (d : dict) (k : string) (read : value -> option A) : option A :=
  v <-? lookup k d ;; read v.

(** A field marked [?]: absent, or of its type. *)
Definition field_opt {A : Type} (d : dict) (k : string) (read : value -> option A)
    : option (option A) :=
  match lookup k d with
  | None => Some None
  | Some v => x <-? read v ;; Some (Some x)
  end.

Definition decode_enemy (d : dict) : option enemy :=
  a <-? field d "icon" as_str ;; b <-? field d "id" as_int ;;
  c <-? field d "link" as_bool ;; e <-? field d "name" as_str ;;
  Some (mk_enemy a b c e).

Definition decode_effect (d : dict) : option effect :=
  a <-? field d "description" as_str ;; b <-? field d "levelConfigName" as_str ;;
  c <-? field d "visible" as_bool ;;
  Some (mk_effect a b c).

Definition decode_challenge_target (d : dict) : option challenge_target :=
  a <-? field d "type" as_str ;; b <-? field d "values" (as_list as_int) ;;
  Some (mk_challenge_target a b).

Definition decode_chamber (d : dict) : option chamber :=
  a <-? field d "id" as_int ;;
  b <-? field d "challengeTarget" (as_object decode_challenge_target) ;;
  c <-? field d "monsterLevel" as_int ;;
  e <-? field d "firstMonsterList" (as_list as_int) ;;
  f <-? field_opt d "secondMonsterList" (as_list as_int) ;;
  Some (mk_chamber a b c e f).

Definition decode_floor (d : dict) : option floor :=
  a <-? field d "id" as_int ;;
  b <-? field d "chamberList" (as_list (as_object decode_chamber)) ;;
  c <-? field d "leyLineDisorder" (as_list (as_object decode_effect)) ;;
  e <-? field d "overrideMonsterLevel" as_int ;;
  f <-? field d "teamNum" as_int ;;
  Some (mk_floor a b c e f).

Definition decode_schedule (d : dict) : option schedule :=
  a <-? field_opt d "openTime" as_int ;;
  b <-? field d "floorList" (as_list (as_object decode_floor)) ;;
  Some (mk_schedule a b).

Definition decode_cycle (d : dict) : option cycle :=
  a <-? field d "id" as_int ;;
  b <-? field d "closeTime" as_int ;;
  c <-? field d "blessing" (as_object decode_effect) ;;
  e <-? field d "entrance" (as_object decode_schedule) ;;
  f <-? field d "schedule" (as_object decode_schedule) ;;
  Some (mk_cycle a b c e f).

Definition decode_response (data : value) : option response :=
  as_object (fun d =>
    a <-? field d "monsterList" (as_mapping (as_object decode_enemy)) ;;
    b <-? field d "items" (as_mapping (as_object decode_cycle)) ;;
    Some (mk_response a b)) data.

(** The input matches the wire schema: every required field is there
    and every field has its type. *)
Definition matches_schema (data : value) : bool :=
  match decode_response data with
  | Some _ => true
  | None => false
  end.

End Wire.

Module Spec.
Import Py Datetime Models.

Definition parseIconUrl (raw : string) : string :=
  if contains "MonsterIcon" raw
  then ("https://api.ambr.top/assets/UI/monster/" ++ raw ++ ".png")%string
  else ("https://api.ambr.top/assets/UI/" ++ raw ++ ".png")%string.

Definition stripHtmlTags (raw : string) : string := Utils.strip_tags raw.

Definition parseTimestamp (raw : Z) : datetime := of_posix raw.

(** What makes a date-time the one of a timestamp: its fields are those
    of a date of the calendar and of a time of day, and the seconds
    counted from 1970-01-01T00:00:00 to it are the timestamp. *)
Definition is_date_time (dt : datetime) : bool :=
  (1 <=? month dt) && (month dt <=? 12)
  && (1 <=? day dt) && (day dt <=? days_in_month (year dt) (month dt))
  && (0 <=? hour dt) && (hour dt <? 24)
  && (0 <=? minute dt) && (minute dt <? 60)
  && (0 <=? second dt) && (second dt <? 60)
  && (microsecond dt =? 0).

Definition seconds_since_epoch (dt : datetime) : Z :=
  (((ymd_to_ord (year dt) (month dt) (day dt) - ymd_to_ord 1970 1 1) * 24 + hour dt) * 60
   + minute dt) * 60 + second dt.

(** "values stringified and joined with /" *)
Fixpoint slashJoined (values : list Z) : string :=
  match values with
  | [] => EmptyString
  | v :: vs =>
      match vs with
      | [] => str_of_int v
      | _ :: _ => (str_of_int v ++ "/" ++ slashJoined vs)%string
      end
  end.

(** For [openTime], absent or zero is "no value". *)
Definition parseOpenTime (raw : option Z) : option datetime :=
  match raw with
  | None => None
  | Some 0 => None
  | Some t => Some (parseTimestamp t)
  end.

Definition mapKeyedCollection {A B : Type} (raw : list (string * A)) (itemParser : A -> B)
    : list B :=
  map (fun kv => itemParser (snd kv)) raw.

Definition enemy (w : Wire.enemy) : AbyssEnemy.t :=
  AbyssEnemy.mk (parseIconUrl (Wire.icon w)) (Wire.enemy_id w) (Wire.link w) (Wire.name w).

Definition blessing (w : Wire.effect) : Blessing.t :=
  Blessing.mk (stripHtmlTags (Wire.description w)) (Wire.levelConfigName w) (Wire.visible w).

Definition ley_line_disorder (w : Wire.effect) : LeyLineDisorder.t :=
  LeyLineDisorder.mk (stripHtmlTags (Wire.description w)) (Wire.levelConfigName w)
    (Wire.visible w).

Definition challenge_target (w : Wire.challenge_target) : ChallengeTarget.t :=
  ChallengeTarget.mk (Wire.type w) (Wire.values w).

Definition chamber (w : Wire.chamber) : Chamber.t :=
  Chamber.mk (Wire.chamber_id w) (challenge_target (Wire.challengeTarget w))
    (Wire.monsterLevel w) (Wire.firstMonsterList w) (Wire.secondMonsterList w).

Definition floor (w : Wire.floor) : Floor.t :=
  Floor.mk (Wire.floor_id w) (map chamber (Wire.chamberList w))
    (map ley_line_disorder (Wire.leyLineDisorder w))
    (Wire.overrideMonsterLevel w) (Wire.teamNum w).

Definition schedule (w : Wire.schedule) : AbyssData.t :=
  AbyssData.mk (parseOpenTime (Wire.openTime w)) (map floor (Wire.floorList w)).

Definition cycle (w : Wire.cycle) : Abyss.t :=
  Abyss.mk (Wire.cycle_id w) (parseTimestamp (Wire.closeTime w)) (blessing (Wire.blessing w))
    (schedule (Wire.entrance w)) (schedule (Wire.schedule_ w)).

Definition response (w : Wire.response) : AbyssResponse.t :=
  AbyssResponse.mk (mapKeyedCollection (Wire.monsterList w) enemy)
    (mapKeyedCollection (Wire.items w) cycle).

(** The timestamps of a response that are converted to a date-time:
    every [closeTime], and every [openTime] that is not zero. *)
Definition open_time_ok (t : option Z) : bool :=
  match t with
  | None | Some 0 => true
  | Some t => in_range t
  end.

Definition cycle_times_ok (w : Wire.cycle) : bool :=
  in_range (Wire.closeTime w)
  && open_time_ok (Wire.openTime (Wire.entrance w))
  && open_time_ok (Wire.openTime (Wire.schedule_ w)).

Definition times_ok (w : Wire.response) : bool :=
  forallb (fun kv => cycle_times_ok (snd kv)) (Wire.items w).

End Spec.

(** ** Vocabulary of the statements *)

Module Terms.
Import Py Pydantic Models.

(** Text without a brace: the literal part of a format template. *)
Definition plain (s : string) : bool :=
  forallb_str (fun c => negb (Ascii.eqb c "{") && negb (Ascii.eqb c "}")) s.

(** Text in which the character [c] does not occur. *)
Definition lacks (c : ascii) (s : string) : bool :=
  forallb_str (fun x => negb (Ascii.eqb x c)) s.

Definition blessing_fields (b : Blessing.t) : string * string * bool :=
  (Blessing.description b, Blessing.level_config_name b, Blessing.visible b).

Definition disorder_fields (l : LeyLineDisorder.t) : string * string * bool :=
  (LeyLineDisorder.description l, LeyLineDisorder.level_config_name l,
   LeyLineDisorder.visible l).

Definition map_result {A B : Type} (f : A -> B) (r : result A) : result B :=
  x <- r ;; Ok (f x).

(** The field [k] is in [d] and its value validates. *)
Definition present {A : Type} (validate : value -> result A) (d : dict) (k : string) : Prop :=
  exists v, lookup k d = Some v /\ is_ok (validate v) = true.

(** The failure [r] tells of the line error [e]: a validation error
    lists it.  An exception that is no validation error tells nothing,
    and neither does it deny. *)
Definition reports {A : Type} (e : line_error) (r : result A) : Prop :=
  match r with
  | Ok _ => False
  | Invalid errs => In e errs
  | Raised _ => True
  end.

(** A field name that is a bare argument name: ASCII, with no brace,
    bracket, dot, colon or exclamation mark. *)
Definition bare_name (s : string) : bool :=
  forallb_str (fun c => in_fragment c && negb (Ascii.eqb c "{") && negb (Ascii.eqb c "}")) s.

(** [d] and [d'] hold the same value, or none, under each key of [ks]. *)
Definition agree_on (ks : list string) (d d' : dict) : Prop :=
  Forall (fun k => lookup k d = lookup k d') ks.

(** Every key of [ks] that [d] lacks is told of, as [missing] at the
    key, by the failure [r]. *)
Definition missing_reported {A : Type} (ks : list string) (d : dict) (r : result A) : Prop :=
  Forall (fun k => lookup k d = None -> reports (mk_error [Key k] missing) r) ks.

End Terms.

(** ** Sample payloads *)

Module Samples.
Import Py.

Local Open Scope string_scope.

Definition hilichurl : value :=
  VDict [("icon", VStr "UI_MonsterIcon_Hili"); ("id", VInt 21010101);
         ("link", VBool true); ("name", VStr "Hilichurl")].

Definition slime : value :=
  VDict [("icon", VStr "UI_Slime"); ("id", VInt 20010101);
         ("link", VBool false); ("name", VStr "Slime")].

Definition blessing : value :=
  VDict [("description", VStr "<color=#FFD780>Blessing</color> of the Abyssal Moon");
         ("levelConfigName", VStr "Tower_Buff_1"); ("visible", VBool true)].

Definition chamber : value :=
  VDict [("id", VInt 1);
         ("challengeTarget",
          VDict [("type", VStr "Remaining challenge time longer than {0} sec.");
                 ("values", VList [VInt 180; VInt 300; VInt 420])]);
         ("monsterLevel", VInt 72);
         ("firstMonsterList", VList [VInt 21010101; VInt 20010101])].

Definition floor : value :=
  VDict [("id", VInt 9); ("chamberList", VList [chamber]);
         ("leyLineDisorder", VList [blessing]);
         ("overrideMonsterLevel", VInt 0); ("teamNum", VInt 2)].

(** A floor without its [chamberList]. *)
Definition floor_without_chambers : value :=
  VDict [("id", VInt 10); ("leyLineDisorder", VList []);
         ("overrideMonsterLevel", VInt 0); ("teamNum", VInt 2)].

Definition cycle (id close_time : value) (floors : list value) : value :=
  VDict [("id", id); ("closeTime", close_time); ("blessing", blessing);
         ("entrance", VDict [("floorList", VList [])]);
         ("schedule", VDict [("openTime", VInt 0); ("floorList", VList floors)])].

Definition response (enemies : value) (cycles : list (string * value)) : value :=
  VDict [("monsterList", enemies); ("items", VDict cycles)].

Definition enemies : value := VDict [("21010101", hilichurl); ("20010101", slime)].

(** A response as the API sends it; the [closeTime] is the one the
    source quotes. *)
Definition regular : value :=
  response enemies [("3", cycle (VInt 3) (VInt 1709258399) [floor])].

(** The same with a [closeTime] in the year 33658. *)
Definition far_future : value :=
  response enemies [("3", cycle (VInt 3) (VInt 1000000000000) [floor])].

(** [monsterList] as an empty array and the cycle's [id] as a string. *)
Definition misshapen : value :=
  response (VList []) [("3", cycle (VStr "3") (VInt 1709258399) [floor])].

(** The second floor of the cycle has no [chamberList]. *)
Definition missing_chambers : value :=
  response enemies
    [("3", cycle (VInt 3) (VInt 1709258399) [floor; floor_without_chambers])].

End Samples.

(** * Properties *)

Import Py Pydantic Datetime Models Terms.

Unset Implicit Arguments.

(** ** Strings *)

Section Strings.

Local Open Scope string_scope.

Lemma append_assoc (a b c : string) : (a ++ b) ++ c = a ++ b ++ c.
Proof. induction a as [|x a IH]; simpl; [reflexivity | now rewrite IH]. Qed.

Lemma append_nil_r (a : string) : a ++ "" = a.
Proof. induction a as [|x a IH]; simpl; [reflexivity | now rewrite IH]. Qed.

Lemma prefix_spec (p s : string) :
  String.prefix p s = true <-> exists post, s = p ++ post.
Proof.
  revert s; induction p as [|c p IH]; intros s; simpl.
  - split; [intros _; now exists s | now destruct s].
  - destruct s as [|c' s].
    + split; [discriminate | intros [post H]; discriminate].
    + simpl. destruct (ascii_dec c c') as [->|Hne].
      * rewrite IH. split; intros [post H]; exists post; congruence.
      * split; [discriminate | intros [post H]; congruence].
Qed.

Lemma contains_unfold (needle hay : string) :
  contains needle hay
  = String.prefix needle hay
    || match hay with
       | EmptyString => false
       | String _ hay' => contains needle hay'
       end.
Proof. destruct hay; reflexivity. Qed.

(** [contains] decides the substring relation. *)
Lemma contains_spec (needle hay : string) :
  contains needle hay = true <-> exists pre post, hay = pre ++ needle ++ post.
Proof.
  induction hay as [|c hay IH]; rewrite contains_unfold.
  - rewrite orb_false_r, prefix_spec. split.
    + intros [post H]. now exists "", post.
    + intros [[|x pre] [post H]]; [now exists post | discriminate].
  - rewrite orb_true_iff, prefix_spec, IH. split.
    + intros [[post H] | [pre [post H]]].
      * now exists "", post.
      * exists (String c pre), post. simpl. now rewrite H.
    + intros [[|x pre] [post H]].
      * left. now exists post.
      * right. exists pre, post. simpl in H. congruence.
Qed.

End Strings.

(** ** Icon URLs *)

Section IconUrl.

Local Open Scope string_scope.

(** C5.  On every string [raw] (the empty one included) the icon
    validator returns, and never raises: the URL under
    [assets/UI/monster/] when ["MonsterIcon"] is a substring of [raw],
    the URL under [assets/UI/] when it is not; and that URL is the
    [icon] of the enemy parsed from an object whose icon is [raw]. *)
Theorem convert_icon_url_spec (raw : string) :
  exists monster : bool,
    (monster = true <-> exists pre post, raw = pre ++ "MonsterIcon" ++ post)
    /\ AbyssEnemy._convert_icon_url (VStr raw)
       = Ok (VStr (if monster
                   then "https://api.ambr.top/assets/UI/monster/" ++ raw ++ ".png"
                   else "https://api.ambr.top/assets/UI/" ++ raw ++ ".png"))
    /\ forall i l n,
         AbyssEnemy.validate
           [("icon", VStr raw); ("id", VInt i); ("link", VBool l); ("name", VStr n)]
         = Ok (AbyssEnemy.mk
                 (if monster
                  then "https://api.ambr.top/assets/UI/monster/" ++ raw ++ ".png"
                  else "https://api.ambr.top/assets/UI/" ++ raw ++ ".png") i l n).
Proof.
  exists (contains "MonsterIcon" raw). split; [apply contains_spec|].
  assert (E : AbyssEnemy._convert_icon_url (VStr raw)
       = Ok (VStr (if contains "MonsterIcon" raw
                   then "https://api.ambr.top/assets/UI/monster/" ++ raw ++ ".png"
                   else "https://api.ambr.top/assets/UI/" ++ raw ++ ".png"))).
  { unfold AbyssEnemy._convert_icon_url. simpl.
    destruct (contains "MonsterIcon" raw); reflexivity. }
  split; [exact E|].
  intros i l n. unfold AbyssEnemy.validate, required, before. simpl lookup. cbv iota.
  rewrite E. reflexivity.
Qed.

Example icon_url_monster :
  AbyssEnemy._convert_icon_url (VStr "MonsterIcon_Test")
  = Ok (VStr "https://api.ambr.top/assets/UI/monster/MonsterIcon_Test.png").
Proof. reflexivity. Qed.

Example icon_url_other :
  AbyssEnemy._convert_icon_url (VStr "Other_Test")
  = Ok (VStr "https://api.ambr.top/assets/UI/Other_Test.png").
Proof. reflexivity. Qed.

End IconUrl.

(** ** Timestamps *)

Section Timestamps.

Local Open Scope string_scope.

(** C3.  As [openTime], the timestamp 0 and every other falsy value
    give [None], and so does an absent [openTime]; as [closeTime], the
    timestamp 0 gives the epoch date-time.  The two validators differ
    on 0. *)
Theorem zero_timestamp_open_vs_close :
  AbyssData._format_open_time (VInt 0) = Ok None
  /\ Abyss._format_close_time (VInt 0) = Ok epoch
  /\ AbyssData._format_open_time (VInt 0)
     <> (dt <- Abyss._format_close_time (VInt 0) ;; Ok (Some dt))
  /\ Forall (fun v => AbyssData._format_open_time v = Ok None)
       [VNone; VBool false; VInt 0; VStr ""; VList []; VDict []]
  /\ (forall floors, AbyssData.validate [("openTime", VInt 0); ("floorList", VList floors)]
                     = AbyssData.validate [("floorList", VList floors)])
  /\ (forall d r,
        lookup "openTime" d = None ->
        AbyssData.validate d = Ok r -> AbyssData.open_time r = None).
Proof.
  split; [reflexivity|]. split; [reflexivity|]. split; [discriminate|].
  split; [repeat constructor|]. split; [reflexivity|].
  intros d r Hd. unfold AbyssData.validate, defaulted. rewrite Hd.
  destruct (required d "floorList" _); simpl; intros H; inversion H; reflexivity.
Qed.

Lemma zero_timestamp_open_vs_close_witness :
  AbyssData.open_time (AbyssData.mk None []) = None.
Proof.
  apply (proj2 (proj2 (proj2 (proj2 (proj2 zero_timestamp_open_vs_close))))
           [("floorList", VList [])] (AbyssData.mk None [])); reflexivity.
Defined.

End Timestamps.

(** ** Blessing and LeyLineDisorder *)

Section Effects.

(** C9.  On every value the two parsers end alike: the same exception,
    the same line errors, or two objects with the same [description],
    [level_config_name] and [visible]. *)
Theorem blessing_disorder_agree (raw : value) :
  map_result blessing_fields (call Blessing.validate raw)
  = map_result disorder_fields (call LeyLineDisorder.validate raw)
  /\ map_result blessing_fields (v_model Blessing.validate raw)
     = map_result disorder_fields (v_model LeyLineDisorder.validate raw).
Proof.
  assert (H : forall d, map_result blessing_fields (Blessing.validate d)
                        = map_result disorder_fields (LeyLineDisorder.validate d)).
  { intros d. unfold Blessing.validate, LeyLineDisorder.validate,
      Blessing._format_description, LeyLineDisorder._format_description.
    destruct (required d "description" _) as [a|e|x];
      destruct (required d "levelConfigName" _) as [b|e'|x'];
      destruct (required d "visible" _) as [c|e''|x'']; reflexivity. }
  split; destruct raw; simpl; try reflexivity; apply H.
Qed.

End Effects.

(** ** Challenge targets *)

Section Formatted.

Local Open Scope string_scope.

Lemma emit_nil (r : option (exn + string)) : emit "" r = r.
Proof. destruct r as [[e|out]|]; reflexivity. Qed.

Lemma emit_emit (a b : string) (r : option (exn + string)) :
  emit a (emit b r) = emit (a ++ b) r.
Proof. destruct r as [[e|out]|]; simpl; [| rewrite append_assoc |]; reflexivity. Qed.

Lemma format_plain_prefix (arg pre rest : string) (num : numbering) :
  plain pre = true ->
  format_from arg Text num (pre ++ rest) = emit pre (format_from arg Text num rest).
Proof.
  induction pre as [|c pre IH]; simpl; intros H.
  - now rewrite emit_nil.
  - apply andb_prop in H as [Hc Hpre]. apply andb_prop in Hc as [Ho Hc].
    apply negb_true_iff in Ho, Hc. rewrite Ho, Hc, (IH Hpre). apply emit_emit.
Qed.

Lemma format_plain (arg s : string) (num : numbering) :
  plain s = true -> format_from arg Text num s = Some (inr s).
Proof.
  intros H. rewrite <- (append_nil_r s) at 1.
  rewrite (format_plain_prefix arg s "" num H). simpl. now rewrite append_nil_r.
Qed.

(** A template with one placeholder, [{}] or [{0}], between two plain
    texts formats to the texts around the argument. *)
Lemma format_one_placeholder (arg pre placeholder post : string) :
  plain pre = true -> plain post = true ->
  placeholder = "{}" \/ placeholder = "{0}" ->
  format (pre ++ placeholder ++ post) arg = Some (inr (pre ++ arg ++ post)).
Proof.
  intros Hpre Hpost Hph. unfold format. rewrite (format_plain_prefix _ _ _ _ Hpre).
  destruct Hph as [-> | ->]; simpl; rewrite (format_plain _ _ _ Hpost); reflexivity.
Qed.

(** [join] puts a slash between the decimal values, and nowhere
    else. *)
Lemma join_slashJoined (values : list Z) :
  join "/" (map str_of_int values) = Spec.slashJoined values.
Proof.
  induction values as [|v vs IH]; [reflexivity|].
  destruct vs as [|v' vs]; [reflexivity|].
  change (join "/" (map str_of_int (v :: v' :: vs)))
    with (str_of_int v ++ "/" ++ join "/" (map str_of_int (v' :: vs))).
  now rewrite IH.
Qed.




Example formatted_two_values :
  ChallengeTarget.formatted (ChallengeTarget.mk "Lose less than {} HP in {{0}}" [60; -2])
  = Some (inr "Lose less than 60/-2 HP in {0}").
Proof. reflexivity. Qed.




End Formatted.

(** ** HTML tags *)

Section HtmlTags.

Local Open Scope string_scope.

Lemma strip_from_text (pre rest : string) :
  lacks "<" pre = true ->
  Utils.strip_from None (pre ++ rest) = pre ++ Utils.strip_from None rest.
Proof.
  induction pre as [|c pre IH]; simpl; intros H; [reflexivity|].
  apply andb_prop in H as [Hc Hpre]. apply negb_true_iff in Hc.
  now rewrite Hc, (IH Hpre).
Qed.

Lemma strip_from_tag (t body rest : string) :
  lacks ">" body = true ->
  Utils.strip_from (Some t) (body ++ String ">" rest) = Utils.strip_from None rest.
Proof.
  revert t; induction body as [|c body IH]; simpl; intros t H; [reflexivity|].
  apply andb_prop in H as [Hc Hbody]. apply negb_true_iff in Hc.
  now rewrite Hc, (IH _ Hbody).
Qed.

Lemma strip_from_unclosed (t rest : string) :
  lacks ">" rest = true -> Utils.strip_from (Some t) rest = t ++ rest.
Proof.
  revert t; induction rest as [|c rest IH]; simpl; intros t H.
  - now rewrite append_nil_r.
  - apply andb_prop in H as [Hc Hrest]. apply negb_true_iff in Hc.
    rewrite Hc, (IH _ Hrest), append_assoc. reflexivity.
Qed.

Lemma description_stripped (d : dict) (s : string) :
  lookup "description" d = Some (VStr s) ->
  required d "description" (before Blessing._format_description v_str)
  = Ok (Utils.strip_tags s).
Proof. intros H. unfold required. now rewrite H. Qed.

(** C7.  Tag stripping, as the specification words it: a tag, from a
    ["<"] to the next [">"], goes, and the text before it stays; a
    ["<"] that no [">"] follows stays; text without ["<"], entities
    included, is unchanged.  These three cases determine the result on
    every string.  The [description] of a parsed Blessing or
    LeyLineDisorder is the stripped input. *)
Theorem strip_tags_spec :
  Utils.strip_tags "<p>Hello <b>World</b></p>" = "Hello World"
  /\ (forall pre body rest,
        lacks "<" pre = true -> lacks ">" body = true ->
        Utils.strip_tags (pre ++ "<" ++ body ++ ">" ++ rest) = pre ++ Utils.strip_tags rest)
  /\ (forall pre rest,
        lacks "<" pre = true -> lacks ">" rest = true ->
        Utils.strip_tags (pre ++ "<" ++ rest) = pre ++ "<" ++ rest)
  /\ (forall s, lacks "<" s = true -> Utils.strip_tags s = s)
  /\ (forall d s b,
        lookup "description" d = Some (VStr s) ->
        Blessing.validate d = Ok b -> Blessing.description b = Utils.strip_tags s)
  /\ (forall d s l,
        lookup "description" d = Some (VStr s) ->
        LeyLineDisorder.validate d = Ok l ->
        LeyLineDisorder.description l = Utils.strip_tags s).
Proof.
  unfold Utils.strip_tags. split; [reflexivity|]. split; [|split; [|split; [|split]]].
  - intros pre body rest Hpre Hbody. rewrite (strip_from_text _ _ Hpre). simpl.
    now rewrite (strip_from_tag _ _ _ Hbody).
  - intros pre rest Hpre Hrest. rewrite (strip_from_text _ _ Hpre). simpl.
    now rewrite (strip_from_unclosed _ _ Hrest).
  - intros s H. rewrite <- (append_nil_r s) at 1. rewrite (strip_from_text _ _ H).
    simpl. apply append_nil_r.
  - intros d s b Hd. unfold Blessing.validate. rewrite (description_stripped _ _ Hd).
    destruct (required d "levelConfigName" _); destruct (required d "visible" _);
      simpl; intros H; inversion H; reflexivity.
  - intros d s l Hd. unfold LeyLineDisorder.validate.
    change LeyLineDisorder._format_description with Blessing._format_description.
    rewrite (description_stripped _ _ Hd).
    destruct (required d "levelConfigName" _); destruct (required d "visible" _);
      simpl; intros H; inversion H; reflexivity.
Qed.

Lemma strip_tags_spec_witness :
  Utils.strip_tags "Fish &amp; <b class='x'>chips</b>" = "Fish &amp; " ++ Utils.strip_tags "chips</b>".
Proof.
  apply (proj1 (proj2 strip_tags_spec) "Fish &amp; " "b class='x'" "chips</b>"); reflexivity.
Defined.

End HtmlTags.

(** ** Keyed mappings *)

Section KeyedMappings.

Local Open Scope string_scope.

Lemma lookup_in (d : dict) (k : string) (v : value) :
  dict_ok d -> In (k, v) d -> lookup k d = Some v.
Proof.
  unfold dict_ok, keys. induction d as [|[k' v'] d IH]; simpl; intros Hnd Hin; [easy|].
  inversion Hnd as [|? ? Hnotin Hnd']; subst.
  destruct Hin as [Heq | Hin].
  - inversion Heq; subst. now rewrite String.eqb_refl.
  - destruct (String.eqb_spec k k') as [->|Hne]; [|now apply IH].
    exfalso. apply Hnotin. change k' with (fst (k', v)). now apply in_map.
Qed.

(** The comprehension looks every key up again in the mapping it
    iterates; on the items of a dict that is the value next to the
    key. *)
Lemma for_each_key {B : Type} (body : value -> result B) (d0 d : dict) :
  (forall k v, In (k, v) d -> lookup k d0 = Some v) ->
  for_each (fun item_id => x <- python (getitem (VDict d0) item_id) ;; body x)
    (map VStr (keys d))
  = for_each body (values d).
Proof.
  induction d as [|[k v] d IH]; intros H; [reflexivity|].
  cbn [keys values map fst snd for_each]. unfold getitem at 1.
  rewrite (H k v (or_introl eq_refl)). cbn [python bind].
  fold (keys d) (values d). rewrite IH; [reflexivity|].
  intros k' v' Hin. apply H. now right.
Qed.

Lemma comprehension_values {B : Type} (body : value -> result B) (d : dict) :
  dict_ok d ->
  (item_ids <- python (iter (VDict d)) ;;
   for_each (fun item_id => x <- python (getitem (VDict d) item_id) ;; body x) item_ids)
  = for_each body (values d).
Proof.
  intros Hd. cbn [iter python bind]. apply for_each_key. intros k v. now apply lookup_in.
Qed.

(** [for_each] succeeds exactly when the body does on every element,
    and then lists the results in the order of the elements. *)
Lemma for_each_ok {A B : Type} (body : A -> result B) (l : list A) (ys : list B) :
  for_each body l = Ok ys <-> Forall2 (fun x y => body x = Ok y) l ys.
Proof.
  revert ys; induction l as [|x l IH]; simpl; intros ys.
  - split; [intros H; inversion H; constructor | intros H; inversion H; reflexivity].
  - split.
    + destruct (body x) as [y|e|e] eqn:Hx; simpl; try discriminate.
      destruct (for_each body l) as [ys'|e|e] eqn:Hl; simpl; try discriminate.
      intros H; inversion H; subst. constructor; [exact Hx | now apply IH].
    + intros H; inversion H as [|? y ? ys' Hx Hl]; subst.
      apply IH in Hl. now rewrite Hx, Hl.
Qed.

Lemma ap2_ok {A B C : Type} (f : A -> B -> C) (ra : result A) (rb : result B) (r : C) :
  f <$> ra <*> rb = Ok r -> exists a b, ra = Ok a /\ rb = Ok b /\ r = f a b.
Proof.
  destruct ra as [a| |], rb as [b| |]; simpl; intros H; inversion H. now exists a, b.
Qed.

Lemma with_loc_ok_inv {A : Type} (i : loc_item) (r : result A) (a : A) :
  with_loc i r = Ok a -> r = Ok a.
Proof. now destruct r. Qed.

Lemma bind_ok_inv {A B : Type} (r : result A) (k : A -> result B) (b : B) :
  bind r k = Ok b -> exists a, r = Ok a /\ k a = Ok b.
Proof. destruct r as [a| |]; simpl; intros H; inversion H. now exists a. Qed.

(** C4.  On a dict (keys pairwise distinct) the two top-level
    validators run the item parser over the values in insertion order:
    the result is the list of parsed values in that order, or the
    failure of the first value that does not parse.  The keys have no
    part in it: two dicts with the same values in the same order give
    the same result.  The [enemies] and the [abyss_items] of a parsed
    response are those lists. *)
Theorem keyed_mapping_flattened (d : dict) :
  dict_ok d ->
  AbyssResponse._convert_enemies (VDict d) = for_each (call AbyssEnemy.validate) (values d)
  /\ AbyssResponse._convert_abyss_items (VDict d) = for_each (call Abyss.validate) (values d)
  /\ (forall enemies,
        AbyssResponse._convert_enemies (VDict d) = Ok enemies
        <-> Forall2 (fun x e => call AbyssEnemy.validate x = Ok e) (values d) enemies)
  /\ (forall cycles,
        AbyssResponse._convert_abyss_items (VDict d) = Ok cycles
        <-> Forall2 (fun x c => call Abyss.validate x = Ok c) (values d) cycles)
  /\ (forall d',
        dict_ok d' -> values d' = values d ->
        AbyssResponse._convert_enemies (VDict d') = AbyssResponse._convert_enemies (VDict d)
        /\ AbyssResponse._convert_abyss_items (VDict d')
           = AbyssResponse._convert_abyss_items (VDict d))
  /\ (forall data r,
        AbyssResponse.parse (VDict data) = Ok r ->
        (lookup "monsterList" data = Some (VDict d) ->
         Forall2 (fun x e => call AbyssEnemy.validate x = Ok e) (values d)
           (AbyssResponse.enemies r))
        /\ (lookup "items" data = Some (VDict d) ->
            Forall2 (fun x c => call Abyss.validate x = Ok c) (values d)
              (AbyssResponse.abyss_items r))).
Proof.
  intros Hd.
  assert (He : forall d, dict_ok d ->
            AbyssResponse._convert_enemies (VDict d)
            = for_each (call AbyssEnemy.validate) (values d))
    by (intros; now apply comprehension_values).
  assert (Hc : forall d, dict_ok d ->
            AbyssResponse._convert_abyss_items (VDict d)
            = for_each (call Abyss.validate) (values d))
    by (intros; now apply comprehension_values).
  split; [now apply He|]. split; [now apply Hc|].
  split; [intros es; rewrite (He d Hd); apply for_each_ok|].
  split; [intros cs; rewrite (Hc d Hd); apply for_each_ok|].
  split; [intros d' Hd' Hv;
          now rewrite (He d Hd), (He d' Hd'), (Hc d Hd), (Hc d' Hd'), Hv|].
  intros data r Hr. change (AbyssResponse.validate data = Ok r) in Hr.
  apply ap2_ok in Hr as (es & cs & Hes & Hcs & ->). unfold required, before in Hes, Hcs.
  split; intros Hl; cbn [AbyssResponse.enemies AbyssResponse.abyss_items].
  - rewrite Hl in Hes. apply with_loc_ok_inv, bind_ok_inv in Hes as (es' & Hes & Hi).
    inversion Hi; subst es'. apply for_each_ok. now rewrite <- (He d Hd).
  - rewrite Hl in Hcs. apply with_loc_ok_inv, bind_ok_inv in Hcs as (cs' & Hcs & Hi).
    inversion Hi; subst cs'. apply for_each_ok. now rewrite <- (Hc d Hd).
Qed.

Lemma keyed_mapping_flattened_witness :
  AbyssResponse._convert_enemies
    (VDict [("21010101", VDict [("icon", VStr "UI_MonsterIcon_Hili"); ("id", VInt 21010101);
                                ("link", VBool true); ("name", VStr "Hilichurl")]);
            ("7", VDict [("icon", VStr "UI_Slime"); ("id", VInt 20010101);
                         ("link", VBool false); ("name", VStr "Slime")])])
  = Ok [AbyssEnemy.mk "https://api.ambr.top/assets/UI/monster/UI_MonsterIcon_Hili.png"
          21010101 true "Hilichurl";
        AbyssEnemy.mk "https://api.ambr.top/assets/UI/UI_Slime.png" 20010101 false "Slime"].
Proof.
  refine (eq_trans (proj1 (keyed_mapping_flattened _ _)) _); [|reflexivity].
  repeat constructor; simpl; intuition discriminate.
Defined.

End KeyedMappings.

(** ** The calendar *)

Section Calendar.

(** The date [civil_from_days] gives has the day number it came from as
    its ordinal: the two ways of counting days agree. *)
Lemma ord_of_civil (days : Z) :
  let '(y, m, d) := civil_from_days days in
  ymd_to_ord y m d = (days + 719163)%Z.
Proof.
  unfold civil_from_days. cbv zeta.
  set (z := (days + 719468)%Z).
  set (era := (z / 146097)%Z). set (doe := (z - era * 146097)%Z).
  assert (He : (0 <= doe <= 146096 /\ z = era * 146097 + doe)%Z)
    by (subst doe era; Z.div_mod_to_equations; lia).
  clearbody doe. clearbody era.
  set (yoe := ((doe - doe / 1460 + doe / 36524 - doe / 146096) / 365)%Z).
  assert (Hy : (0 <= yoe <= 399)%Z) by (subst yoe; Z.div_mod_to_equations; lia).
  set (doy := (doe - (365 * yoe + yoe / 4 - yoe / 100))%Z).
  assert (Hdoy : (0 <= doy <= 365)%Z) by (subst doy yoe; Z.div_mod_to_equations; lia).
  assert (Hdoy' : doy = 365%Z ->
                  ((yoe + 1) mod 4 = 0 /\ ((yoe + 1) mod 100 <> 0 \/ yoe = 399))%Z)
    by (subst doy yoe; Z.div_mod_to_equations; lia).
  assert (Hdoe : (doe = 365 * yoe + yoe / 4 - yoe / 100 + doy)%Z) by (subst doy; lia).
  clearbody doy. clearbody yoe.
  set (mp := ((5 * doy + 2) / 153)%Z).
  assert (Hmp : (0 <= mp <= 11)%Z) by (subst mp; Z.div_mod_to_equations; lia).
  assert (Hcases : mp = 0%Z \/ mp = 1%Z \/ mp = 2%Z \/ mp = 3%Z \/ mp = 4%Z \/ mp = 5%Z
                   \/ mp = 6%Z \/ mp = 7%Z \/ mp = 8%Z \/ mp = 9%Z \/ mp = 10%Z
                   \/ mp = 11%Z) by lia.
  assert (Hmpd : (153 * mp <= 5 * doy + 2 < 153 * mp + 153)%Z)
    by (subst mp; Z.div_mod_to_equations; lia).
  clearbody mp.
  remember (if (mp <? 10)%Z then (mp + 3)%Z else (mp - 9)%Z) as m eqn:Hm.
  unfold ymd_to_ord, days_before_year, days_before_month, is_leap, _days_before_month.
  cbv zeta.
  assert (Hz : (days = era * 146097 + doe - 719468)%Z) by (subst z; lia).
  clear z He.
  destruct Hcases as [->|[->|[->|[->|[->|[->|[->|[->|[->|[->|[->| ->]]]]]]]]]]];
    vm_compute in Hm; subst m;
    cbv beta iota delta [Z.leb Z.ltb Z.compare Pos.compare Pos.compare_cont];
    repeat match goal with
           | |- context [(?a mod ?b =? 0)%Z] => destruct (Z.eqb_spec (a mod b) 0)
           end;
    cbn [negb orb andb]; Z.div_mod_to_equations; lia.
Qed.

(** Counted from the date and time fields, the seconds of [of_posix t]
    are [t] past the epoch. *)
Lemma utc_to_seconds_of_posix (t : Z) :
  utc_to_seconds (of_posix t)
  = if ((MINYEAR <=? year (of_posix t)) && (year (of_posix t) <=? MAXYEAR))%Z
    then inr (t + epoch_seconds)%Z else inl ValueError.
Proof.
  unfold utc_to_seconds. destruct (_ && _); [|reflexivity]. f_equal.
  pose proof (ord_of_civil (t / 86400)) as Hord. unfold of_posix.
  destruct (civil_from_days (t / 86400)) as [[y m] d].
  cbn [year month day hour minute second]. rewrite Hord. unfold epoch_seconds.
  Z.div_mod_to_equations. lia.
Qed.

Lemma ebind_inr {A B : Type} (r : exn + A) (k : A -> exn + B) (b : B) :
  ebind r k = inr b -> exists a, r = inr a /\ k a = inr b.
Proof. destruct r as [e|a]; simpl; [discriminate|]. intros H. now exists a. Qed.

Lemma as_time_t_fits (u : Z) :
  (- 2 ^ 63 <= u < 2 ^ 63)%Z -> as_time_t u = inr u.
Proof.
  intros [Hlo Hhi]. unfold as_time_t.
  replace ((- 2 ^ 63 <=? u) && (u <? 2 ^ 63))%Z with true; [reflexivity|].
  symmetry. apply andb_true_intro. split; [now apply Z.leb_le | now apply Z.ltb_lt].
Qed.

Lemma localtime_fits (t : Z) :
  (MINYEAR <= year (of_posix t) <= MAXYEAR)%Z -> localtime t = inr (of_posix t).
Proof.
  unfold MINYEAR, MAXYEAR. intros [Hlo Hhi]. unfold localtime. cbv zeta.
  replace ((- 2 ^ 31 <=? year (of_posix t) - 1900)
           && (year (of_posix t) - 1900 <? 2 ^ 31))%Z with true; [reflexivity|].
  symmetry. apply andb_true_intro. split; [apply Z.leb_le | apply Z.ltb_lt]; lia.
Qed.

Lemma localtime_inr (t : Z) (tm : datetime) : localtime t = inr tm -> tm = of_posix t.
Proof. unfold localtime. cbv zeta. destruct (_ && _); intros H; now inversion H. Qed.

Lemma utc_to_seconds_inr (tm : datetime) (s : Z) :
  utc_to_seconds tm = inr s -> (MINYEAR <= year tm <= MAXYEAR)%Z.
Proof.
  unfold utc_to_seconds. destruct (_ && _) eqn:H; [|discriminate]. intros _.
  apply andb_prop in H as [Hlo Hhi]. now apply Z.leb_le in Hlo, Hhi.
Qed.

Lemma local_inr (u s : Z) :
  local u = inr s -> (MINYEAR <= year (of_posix (u - epoch_seconds)) <= MAXYEAR)%Z.
Proof.
  unfold local. intros H.
  apply ebind_inr in H as (t & Ht & H). apply ebind_inr in H as (tm & Htm & H).
  unfold as_time_t in Ht. destruct (_ && _); [|discriminate]. inversion Ht; subst t.
  apply localtime_inr in Htm. subst tm. now apply utc_to_seconds_inr in H.
Qed.

(** The civil year of a timestamp from 0001-01-01T00:00:00 to
    9999-12-31T23:59:59 is one a [datetime] holds. *)
Lemma year_in_range (t : Z) :
  (-62135596800 <= t <= 253402300799)%Z ->
  (MINYEAR <= year (of_posix t) <= MAXYEAR)%Z.
Proof.
  intros Ht. unfold of_posix, civil_from_days, MINYEAR, MAXYEAR. cbv zeta.
  set (days := (t / 86400)%Z).
  assert (Hd : (-719162 <= days <= 2932896)%Z)
    by (subst days; Z.div_mod_to_equations; lia).
  clearbody days. clear Ht.
  set (z := (days + 719468)%Z).
  assert (Hz : (306 <= z <= 3652364)%Z) by (subst z; lia).
  clearbody z. clear Hd.
  set (era := (z / 146097)%Z). set (doe := (z - era * 146097)%Z).
  assert (He : (0 <= era <= 24 /\ 0 <= doe <= 146096 /\ z = era * 146097 + doe)%Z)
    by (subst doe era; Z.div_mod_to_equations; lia).
  clearbody doe. clearbody era.
  set (yoe := ((doe - doe / 1460 + doe / 36524 - doe / 146096) / 365)%Z).
  assert (Hy : (0 <= yoe <= 399)%Z) by (subst yoe; Z.div_mod_to_equations; lia).
  set (doy := (doe - (365 * yoe + yoe / 4 - yoe / 100))%Z).
  set (mp := ((5 * doy + 2) / 153)%Z).
  simpl.
  destruct (mp <? 10)%Z eqn:Hmp; [apply Z.ltb_lt in Hmp | apply Z.ltb_ge in Hmp].
  - replace (mp + 3 <=? 2)%Z with false
      by (symmetry; apply Z.leb_gt; subst mp doy yoe; Z.div_mod_to_equations; lia).
    simpl. subst mp doy yoe. Z.div_mod_to_equations. lia.
  - destruct (mp - 9 <=? 2)%Z eqn:Hm; simpl; subst mp doy yoe;
      Z.div_mod_to_equations; lia.
Qed.

Lemma year_out_of_range (t : Z) :
  (t < -62135596800 \/ 253402300799 < t)%Z ->
  (year (of_posix t) < MINYEAR \/ MAXYEAR < year (of_posix t))%Z.
Proof.
  intros Ht. unfold of_posix, civil_from_days, MINYEAR, MAXYEAR. cbv zeta.
  set (days := (t / 86400)%Z).
  assert (Hd : (days < -719162 \/ 2932896 < days)%Z)
    by (subst days; Z.div_mod_to_equations; lia).
  clearbody days. clear Ht.
  set (z := (days + 719468)%Z).
  assert (Hz : (z < 306 \/ 3652364 < z)%Z) by (subst z; lia).
  clearbody z. clear Hd.
  set (era := (z / 146097)%Z). set (doe := (z - era * 146097)%Z).
  assert (He : (0 <= doe <= 146096 /\ z = era * 146097 + doe)%Z)
    by (subst doe era; Z.div_mod_to_equations; lia).
  clearbody doe. clearbody era.
  set (yoe := ((doe - doe / 1460 + doe / 36524 - doe / 146096) / 365)%Z).
  assert (Hy : (0 <= yoe <= 399)%Z) by (subst yoe; Z.div_mod_to_equations; lia).
  set (doy := (doe - (365 * yoe + yoe / 4 - yoe / 100))%Z).
  set (mp := ((5 * doy + 2) / 153)%Z).
  simpl.
  destruct (mp <? 10)%Z eqn:Hmp; [apply Z.ltb_lt in Hmp | apply Z.ltb_ge in Hmp].
  - replace (mp + 3 <=? 2)%Z with false
      by (symmetry; apply Z.leb_gt; subst mp doy yoe; Z.div_mod_to_equations; lia).
    simpl. subst mp doy yoe. Z.div_mod_to_equations. lia.
  - destruct (mp - 9 <=? 2)%Z eqn:Hm; [apply Z.leb_le in Hm | apply Z.leb_gt in Hm];
      simpl; subst mp doy yoe; Z.div_mod_to_equations; lia.
Qed.

Lemma local_of_posix (t : Z) :
  (-62135596800 <= t <= 253402300799)%Z ->
  local (epoch_seconds + t) = inr (t + epoch_seconds)%Z.
Proof.
  intros Ht. pose proof (year_in_range t Ht) as Hy. unfold local.
  replace (epoch_seconds + t - epoch_seconds)%Z with t by lia.
  rewrite as_time_t_fits by lia. cbn [ebind].
  rewrite (localtime_fits t Hy). cbn [ebind]. rewrite utc_to_seconds_of_posix.
  destruct Hy as [Hlo Hhi]. apply Z.leb_le in Hlo, Hhi. now rewrite Hlo, Hhi.
Qed.

(** [fromtimestamp] takes the timestamps in range, and gives the civil
    date and time of each. *)
Lemma fromtimestamp_in_range (t : Z) :
  in_range t = true -> fromtimestamp (VInt t) = inr (of_posix t).
Proof.
  unfold in_range. intros H. apply andb_prop in H as [Hlo Hhi].
  apply Z.leb_le in Hlo, Hhi.
  assert (Ht : (-62135596800 <= t <= 253402300799)%Z) by lia.
  pose proof (year_in_range t Ht) as Hy.
  unfold fromtimestamp. cbn [as_index].
  rewrite as_time_t_fits by lia. cbn [ebind].
  rewrite (localtime_fits t Hy). cbn [ebind]. rewrite utc_to_seconds_of_posix.
  destruct Hy as [Hylo Hyhi]. apply Z.leb_le in Hylo, Hyhi. rewrite Hylo, Hyhi.
  cbn [andb ebind].
  replace (epoch_seconds + t - max_fold_seconds)%Z
    with (epoch_seconds + (t - max_fold_seconds))%Z by lia.
  rewrite local_of_posix by (unfold max_fold_seconds; lia). cbn [ebind]. cbv zeta.
  replace (t + epoch_seconds - (t - max_fold_seconds + epoch_seconds) - max_fold_seconds
           <? 0)%Z with false by (symmetry; apply Z.ltb_ge; lia).
  reflexivity.
Qed.

(** It takes no other integer. *)
Lemma fromtimestamp_out_of_range (t : Z) :
  in_range t = false -> forall dt, fromtimestamp (VInt t) <> inr dt.
Proof.
  intros Ht dt H. unfold fromtimestamp in H. cbn [as_index] in H.
  apply ebind_inr in H as (timet & Htimet & H).
  unfold as_time_t in Htimet. destruct (_ && _); [|discriminate].
  inversion Htimet; subst timet. clear Htimet.
  apply ebind_inr in H as (tm & Htm & H). apply localtime_inr in Htm. subst tm.
  apply ebind_inr in H as (rs & Hrs & H). apply utc_to_seconds_inr in Hrs.
  apply ebind_inr in H as (ps & Hps & _). apply local_inr in Hps.
  replace (epoch_seconds + t - max_fold_seconds - epoch_seconds)%Z
    with (t - 86400)%Z in Hps by (unfold max_fold_seconds; lia).
  assert (H1 : (-62135596800 <= t <= 253402300799)%Z).
  { destruct (Z_lt_ge_dec t (-62135596800)) as [Hl|Hl];
      [pose proof (year_out_of_range t (or_introl Hl)); lia|].
    destruct (Z_lt_ge_dec 253402300799 t) as [Hr|Hr];
      [pose proof (year_out_of_range t (or_intror Hr)); lia|]. lia. }
  assert (H2 : (-62135596800 <= t - 86400)%Z).
  { destruct (Z_lt_ge_dec (t - 86400) (-62135596800)) as [Hl|Hl]; [|lia].
    pose proof (year_out_of_range (t - 86400) (or_introl Hl)). lia. }
  unfold in_range in Ht. apply andb_false_iff in Ht.
  destruct Ht as [Ht|Ht]; apply Z.leb_gt in Ht; lia.
Qed.

(** The exceptions at the ends of the ranges: [ValueError] where the
    year, or the year one day earlier, is none of a [datetime];
    [OSError] where [tm_year] cannot hold the year; [OverflowError]
    outside [time_t]. *)
Example fromtimestamp_edges :
  map (fun t => fromtimestamp (VInt t))
    [-62135510401; -62135510400; 253402300799; 253402300800; 67767976233532800;
     67767976233534700; 2 ^ 63 - 1; 2 ^ 63; -67768040609740800; -67768040609740801;
     - 2 ^ 63 - 1]%Z
  = [inl ValueError; inr (mk_datetime 1 1 2 0 0 0 0); inr (mk_datetime 9999 12 31 23 59 59 0);
     inl ValueError; inl ValueError; inl ValueError; inl OSError; inl OverflowError;
     inl ValueError; inl OSError; inl OverflowError].
Proof. vm_compute. reflexivity. Qed.

Lemma fromtimestamp_inr (v : value) (dt : datetime) :
  fromtimestamp v = inr dt -> exists t, as_index v = Some t /\ dt = of_posix t.
Proof.
  unfold fromtimestamp. destruct (as_index v) as [t|]; [|discriminate]. intros H.
  exists t. split; [reflexivity|].
  apply ebind_inr in H as (timet & Htimet & H).
  unfold as_time_t in Htimet. destruct (_ && _); [|discriminate].
  inversion Htimet; subst timet. clear Htimet.
  apply ebind_inr in H as (tm & Htm & H). apply localtime_inr in Htm. subst tm.
  apply ebind_inr in H as (rs & _ & H). apply ebind_inr in H as (ps & _ & H).
  apply ebind_inr in H as (x & _ & H). now inversion H.
Qed.

(** The date [civil_from_days] gives is a date of the calendar. *)
Lemma civil_is_date (days : Z) :
  let '(y, m, d) := civil_from_days days in
  (1 <= m <= 12 /\ 1 <= d <= days_in_month y m)%Z.
Proof.
  unfold civil_from_days. cbv zeta.
  set (z := (days + 719468)%Z).
  set (era := (z / 146097)%Z). set (doe := (z - era * 146097)%Z).
  assert (He : (0 <= doe <= 146096)%Z)
    by (subst doe era; Z.div_mod_to_equations; lia).
  clearbody doe. clearbody era.
  set (yoe := ((doe - doe / 1460 + doe / 36524 - doe / 146096) / 365)%Z).
  assert (Hy : (0 <= yoe <= 399)%Z) by (subst yoe; Z.div_mod_to_equations; lia).
  set (doy := (doe - (365 * yoe + yoe / 4 - yoe / 100))%Z).
  assert (Hdoy : (0 <= doy <= 365)%Z) by (subst doy yoe; Z.div_mod_to_equations; lia).
  assert (Hdoy' : doy = 365%Z ->
                  ((yoe + 1) mod 4 = 0 /\ ((yoe + 1) mod 100 <> 0 \/ yoe = 399))%Z)
    by (subst doy yoe; Z.div_mod_to_equations; lia).
  clearbody doy. clearbody yoe.
  set (mp := ((5 * doy + 2) / 153)%Z).
  assert (Hmp : (0 <= mp <= 11)%Z) by (subst mp; Z.div_mod_to_equations; lia).
  assert (Hcases : mp = 0%Z \/ mp = 1%Z \/ mp = 2%Z \/ mp = 3%Z \/ mp = 4%Z \/ mp = 5%Z
                   \/ mp = 6%Z \/ mp = 7%Z \/ mp = 8%Z \/ mp = 9%Z \/ mp = 10%Z
                   \/ mp = 11%Z) by lia.
  assert (Hmpd : (153 * mp <= 5 * doy + 2 < 153 * mp + 153)%Z)
    by (subst mp; Z.div_mod_to_equations; lia).
  clearbody mp.
  remember (if (mp <? 10)%Z then (mp + 3)%Z else (mp - 9)%Z) as m eqn:Hm.
  clear z He.
  destruct Hcases as [->|[->|[->|[->|[->|[->|[->|[->|[->|[->|[->| ->]]]]]]]]]]];
    vm_compute in Hm; subst m; unfold days_in_month, is_leap;
    cbv beta iota delta [Z.leb Z.ltb Z.compare Pos.compare Pos.compare_cont];
    repeat match goal with
           | |- context [(?a mod ?b =? 0)%Z] => destruct (Z.eqb_spec (a mod b) 0)
           end;
    cbn [negb orb andb]; Z.div_mod_to_equations; lia.
Qed.

(** The conversion of a timestamp is right: what [of_posix] gives is a
    date-time, and the one that many seconds after the epoch. *)
Lemma of_posix_is_date_time (t : Z) : Spec.is_date_time (of_posix t) = true.
Proof.
  pose proof (civil_is_date (t / 86400)) as H. unfold Spec.is_date_time, of_posix.
  destruct (civil_from_days (t / 86400)) as [[y m] d].
  cbn [year month day hour minute second microsecond].
  destruct H as [[Hm1 Hm2] [Hd1 Hd2]].
  repeat (apply andb_true_intro; split);
    try (apply Z.leb_le); try (apply Z.ltb_lt); try (apply Z.eqb_eq);
    try assumption; try reflexivity; Z.div_mod_to_equations; lia.
Qed.

Lemma seconds_of_posix (t : Z) : Spec.seconds_since_epoch (of_posix t) = t.
Proof.
  pose proof (ord_of_civil (t / 86400)) as Hord. unfold Spec.seconds_since_epoch, of_posix.
  destruct (civil_from_days (t / 86400)) as [[y m] d].
  cbn [year month day hour minute second]. rewrite Hord.
  change (ymd_to_ord 1970 1 1) with 719163%Z. Z.div_mod_to_equations. lia.
Qed.

End Calendar.

(** ** Responses that match the wire schema *)

Section WireConformance.

Local Open Scope string_scope.

Lemma field_str (d : dict) (k s : string) :
  Wire.field d k Wire.as_str = Some s -> lookup k d = Some (VStr s).
Proof.
  unfold Wire.field. destruct (lookup k d) as [[]|]; simpl; intros H; inversion H; reflexivity.
Qed.

Lemma field_int (d : dict) (k : string) (z : Z) :
  Wire.field d k Wire.as_int = Some z -> lookup k d = Some (VInt z).
Proof.
  unfold Wire.field. destruct (lookup k d) as [[]|]; simpl; intros H; inversion H; reflexivity.
Qed.

Lemma field_bool (d : dict) (k : string) (b : bool) :
  Wire.field d k Wire.as_bool = Some b -> lookup k d = Some (VBool b).
Proof.
  unfold Wire.field. destruct (lookup k d) as [[]|]; simpl; intros H; inversion H; reflexivity.
Qed.

Lemma field_list {W : Type} (read : value -> option W) (d : dict) (k : string) (ws : list W) :
  Wire.field d k (Wire.as_list read) = Some ws ->
  exists vs, lookup k d = Some (VList vs) /\ Wire.all_some read vs = Some ws.
Proof.
  unfold Wire.field. destruct (lookup k d) as [[]|]; simpl; intros H; try discriminate.
  eexists; split; [reflexivity | exact H].
Qed.

Lemma field_object {W : Type} (read : dict -> option W) (d : dict) (k : string) (w : W) :
  Wire.field d k (Wire.as_object read) = Some w ->
  exists d', lookup k d = Some (VDict d') /\ read d' = Some w.
Proof.
  unfold Wire.field. destruct (lookup k d) as [[]|]; simpl; intros H; try discriminate.
  eexists; split; [reflexivity | exact H].
Qed.

(** A list whose items all read validates to the list of their
    images. *)
Lemma items_read {W A : Type} (read : value -> option W) (validate : value -> result A)
    (tr : W -> A) :
  (forall v w, read v = Some w -> validate v = Ok (tr w)) ->
  forall vs ws i, Wire.all_some read vs = Some ws -> v_items validate i vs = Ok (map tr ws).
Proof.
  intros Hitem. induction vs as [|v vs IH]; simpl; intros ws i H.
  - inversion H; reflexivity.
  - destruct (read v) as [w|] eqn:Hv; simpl in H; [|discriminate].
    destruct (Wire.all_some read vs) as [ws'|] eqn:Hvs; simpl in H; [|discriminate].
    inversion H; subst. rewrite (Hitem _ _ Hv), (IH _ (S i) eq_refl). reflexivity.
Qed.

Lemma ints_read (vs : list value) (zs : list Z) (i : nat) :
  Wire.all_some Wire.as_int vs = Some zs -> v_items v_int i vs = Ok zs.
Proof.
  intros H. rewrite (items_read Wire.as_int v_int (fun z => z)) with (ws := zs); trivial.
  - now rewrite map_id.
  - intros [] w Hv; inversion Hv; reflexivity.
Qed.

Lemma required_str (d : dict) (k s : string) :
  Wire.field d k Wire.as_str = Some s -> required d k v_str = Ok s.
Proof. intros H. unfold required. now rewrite (field_str _ _ _ H). Qed.

Lemma required_int (d : dict) (k : string) (z : Z) :
  Wire.field d k Wire.as_int = Some z -> required d k v_int = Ok z.
Proof. intros H. unfold required. now rewrite (field_int _ _ _ H). Qed.

Lemma required_bool (d : dict) (k : string) (b : bool) :
  Wire.field d k Wire.as_bool = Some b -> required d k v_bool = Ok b.
Proof. intros H. unfold required. now rewrite (field_bool _ _ _ H). Qed.

Lemma required_ints (d : dict) (k : string) (zs : list Z) :
  Wire.field d k (Wire.as_list Wire.as_int) = Some zs -> required d k (v_list v_int) = Ok zs.
Proof.
  intros H. destruct (field_list _ _ _ _ H) as [vs [Hk Hvs]].
  unfold required. rewrite Hk. simpl. now rewrite (ints_read _ _ _ Hvs).
Qed.

Lemma required_objects {W A : Type} (read : dict -> option W) (validate : dict -> result A)
    (tr : W -> A) (d : dict) (k : string) (ws : list W) :
  (forall d' w, read d' = Some w -> validate d' = Ok (tr w)) ->
  Wire.field d k (Wire.as_list (Wire.as_object read)) = Some ws ->
  required d k (v_list (v_model validate)) = Ok (map tr ws).
Proof.
  intros Hitem H. destruct (field_list _ _ _ _ H) as [vs [Hk Hvs]].
  unfold required. rewrite Hk. simpl.
  rewrite (items_read (Wire.as_object read) (v_model validate) tr) with (ws := ws); trivial.
  intros [] w Hv; try discriminate. simpl in *. now apply Hitem.
Qed.

Lemma required_object {W A : Type} (read : dict -> option W) (validate : dict -> result A)
    (tr : W -> A) (d : dict) (k : string) (w : W) :
  (forall d', read d' = Some w -> validate d' = Ok (tr w)) ->
  Wire.field d k (Wire.as_object read) = Some w ->
  required d k (v_model validate) = Ok (tr w).
Proof.
  intros Hitem H. destruct (field_object _ _ _ _ H) as [d' [Hk Hd']].
  unfold required. rewrite Hk. simpl. now rewrite (Hitem _ Hd').
Qed.

(** Reading a record off [decode_*]: one equation for each field. *)
Ltac decoded H :=
  repeat match type of H with
         | Wire.obind ?o _ = Some _ =>
             let E := fresh "E" in
             destruct o eqn:E; [cbn [Wire.obind] in H | discriminate H]
         end;
  inversion H; subst; clear H.

Lemma enemy_read (d : dict) (w : Wire.enemy) :
  Wire.decode_enemy d = Some w -> AbyssEnemy.validate d = Ok (Spec.enemy w).
Proof.
  unfold Wire.decode_enemy. intros H. decoded H. unfold AbyssEnemy.validate.
  rewrite (required_int _ _ _ E0), (required_bool _ _ _ E1), (required_str _ _ _ E2).
  unfold required. rewrite (field_str _ _ _ E). unfold Spec.enemy, Spec.parseIconUrl. simpl.
  destruct (contains "MonsterIcon" s); reflexivity.
Qed.

Lemma blessing_read (d : dict) (w : Wire.effect) :
  Wire.decode_effect d = Some w -> Blessing.validate d = Ok (Spec.blessing w).
Proof.
  unfold Wire.decode_effect. intros H. decoded H. unfold Blessing.validate.
  rewrite (required_str _ _ _ E0), (required_bool _ _ _ E1).
  unfold required. rewrite (field_str _ _ _ E). reflexivity.
Qed.

Lemma ley_line_disorder_read (d : dict) (w : Wire.effect) :
  Wire.decode_effect d = Some w ->
  LeyLineDisorder.validate d = Ok (Spec.ley_line_disorder w).
Proof.
  unfold Wire.decode_effect. intros H. decoded H. unfold LeyLineDisorder.validate.
  rewrite (required_str _ _ _ E0), (required_bool _ _ _ E1).
  unfold required. rewrite (field_str _ _ _ E). reflexivity.
Qed.

Lemma challenge_target_read (d : dict) (w : Wire.challenge_target) :
  Wire.decode_challenge_target d = Some w ->
  ChallengeTarget.validate d = Ok (Spec.challenge_target w).
Proof.
  unfold Wire.decode_challenge_target. intros H. decoded H. unfold ChallengeTarget.validate.
  rewrite (required_str _ _ _ E), (required_ints _ _ _ E0). reflexivity.
Qed.

Lemma chamber_read (d : dict) (w : Wire.chamber) :
  Wire.decode_chamber d = Some w -> Chamber.validate d = Ok (Spec.chamber w).
Proof.
  unfold Wire.decode_chamber. intros H. decoded H. unfold Chamber.validate.
  rewrite (required_int _ _ _ E), (required_int _ _ _ E1), (required_ints _ _ _ E2).
  rewrite (required_object _ _ Spec.challenge_target _ _ _
             (fun d' => challenge_target_read d' _) E0).
  assert (Hw2 : defaulted d "secondMonsterList" None (v_optional (v_list v_int)) = Ok o).
  { unfold Wire.field_opt in E3. unfold defaulted.
    destruct (lookup "secondMonsterList" d) as [v|]; [|now inversion E3].
    destruct (Wire.as_list Wire.as_int v) as [zs|] eqn:Hv; simpl in E3; inversion E3; subst.
    destruct v; try discriminate. simpl in *. now rewrite (ints_read _ _ _ Hv). }
  rewrite Hw2. reflexivity.
Qed.

Lemma floor_read (d : dict) (w : Wire.floor) :
  Wire.decode_floor d = Some w -> Floor.validate d = Ok (Spec.floor w).
Proof.
  unfold Wire.decode_floor. intros H. decoded H. unfold Floor.validate.
  rewrite (required_int _ _ _ E), (required_int _ _ _ E2), (required_int _ _ _ E3).
  rewrite (required_objects _ _ Spec.chamber _ _ _ chamber_read E0).
  rewrite (required_objects _ _ Spec.ley_line_disorder _ _ _ ley_line_disorder_read E1).
  reflexivity.
Qed.

Lemma open_time_read (d : dict) (o : option Z) :
  Wire.field_opt d "openTime" Wire.as_int = Some o ->
  Spec.open_time_ok o = true ->
  defaulted d "openTime" None (before AbyssData._format_open_time v_instance)
  = Ok (Spec.parseOpenTime o).
Proof.
  unfold Wire.field_opt, defaulted. destruct (lookup "openTime" d) as [v|].
  - destruct v; simpl; try discriminate. intros H; inversion H; subst; clear H.
    unfold before, AbyssData._format_open_time, Spec.parseOpenTime, Spec.parseTimestamp.
    destruct z as [|p|p]; [reflexivity | |];
      simpl; intros Ht; rewrite (fromtimestamp_in_range _ Ht); reflexivity.
  - intros H; inversion H; reflexivity.
Qed.

Lemma schedule_read (d : dict) (w : Wire.schedule) :
  Wire.decode_schedule d = Some w ->
  Spec.open_time_ok (Wire.openTime w) = true ->
  AbyssData.validate d = Ok (Spec.schedule w).
Proof.
  unfold Wire.decode_schedule. intros H Ht. decoded H. unfold AbyssData.validate.
  rewrite (open_time_read _ _ E Ht).
  rewrite (required_objects _ _ Spec.floor _ _ _ floor_read E0). reflexivity.
Qed.

Lemma cycle_read (d : dict) (w : Wire.cycle) :
  Wire.decode_cycle d = Some w ->
  Spec.cycle_times_ok w = true ->
  Abyss.validate d = Ok (Spec.cycle w).
Proof.
  unfold Wire.decode_cycle, Spec.cycle_times_ok. intros H Ht. decoded H. simpl in Ht.
  apply andb_prop in Ht as [Ht Hs]. apply andb_prop in Ht as [Hc He].
  unfold Abyss.validate.
  rewrite (required_int _ _ _ E).
  rewrite (required_object _ _ Spec.blessing _ _ _ (fun d' => blessing_read d' _) E1).
  rewrite (required_object _ _ Spec.schedule _ _ _
             (fun d' H' => schedule_read d' _ H' He) E2).
  rewrite (required_object _ _ Spec.schedule _ _ _
             (fun d' H' => schedule_read d' _ H' Hs) E3).
  unfold required. rewrite (field_int _ _ _ E0).
  unfold before, Abyss._format_close_time. rewrite (fromtimestamp_in_range _ Hc).
  reflexivity.
Qed.

Lemma distinct_NoDup (l : list string) : Wire.distinct l = true -> NoDup l.
Proof.
  induction l as [|k l IH]; simpl; intros H; constructor.
  - apply andb_prop in H as [H _]. apply negb_true_iff in H. intros Hin.
    assert (Ht : existsb (String.eqb k) l = true)
      by (apply existsb_exists; exists k; split; [exact Hin | apply String.eqb_refl]).
    congruence.
  - apply andb_prop in H as [_ H]. now apply IH.
Qed.

(** A mapping whose values all read maps, value by value, to the
    collection the specification assigns to it. *)
Lemma mapping_read {W A : Type} (read : value -> option W) (body : value -> result A)
    (tr : W -> A) (ok : W -> bool) :
  (forall v w, read v = Some w -> ok w = true -> body v = Ok (tr w)) ->
  forall d kvs,
    Wire.all_some (fun kv => Wire.obind (read (snd kv)) (fun x => Some (fst kv, x))) d
    = Some kvs ->
    forallb (fun kv => ok (snd kv)) kvs = true ->
    for_each body (values d) = Ok (Spec.mapKeyedCollection kvs tr).
Proof.
  intros Hitem. induction d as [|[k v] d IH]; simpl; intros kvs H Hok.
  - inversion H; reflexivity.
  - destruct (read v) as [w|] eqn:Hv; simpl in H; [|discriminate].
    destruct (Wire.all_some _ d) as [kvs'|] eqn:Hd; simpl in H; [|discriminate].
    inversion H; subst; clear H. simpl in Hok. apply andb_prop in Hok as [Hw Hok].
    rewrite (Hitem _ _ Hv Hw). simpl. fold (values d). rewrite (IH _ eq_refl Hok).
    reflexivity.
Qed.

Lemma field_mapping {W : Type} (read : value -> option W) (d : dict) (k : string)
    (kvs : list (string * W)) :
  Wire.field d k (Wire.as_mapping read) = Some kvs ->
  exists m, lookup k d = Some (VDict m) /\ dict_ok m
            /\ Wire.all_some
                 (fun kv => Wire.obind (read (snd kv)) (fun x => Some (fst kv, x))) m
               = Some kvs.
Proof.
  unfold Wire.field. destruct (lookup k d) as [[]|]; simpl; intros H; try discriminate.
  destruct (Wire.distinct (keys items)) eqn:Hk; [|discriminate].
  eexists; split; [reflexivity|]. split; [now apply distinct_NoDup | exact H].
Qed.

Lemma forallb_true {A : Type} (l : list A) : forallb (fun _ => true) l = true.
Proof. induction l; simpl; auto. Qed.

(** C1, amended.  With UTC as the local zone, a response that matches
    the wire schema, and whose timestamps lie from 0001-01-02T00:00:00
    to 9999-12-31T23:59:59, the ones [fromtimestamp] takes, parses, and
    the object graph is the one the specification assigns to it: fields
    renamed, tags stripped from the descriptions, icon URLs built,
    timestamps converted, and the two keyed mappings flattened in order.
    The conversion of a timestamp gives a date of the calendar and a
    time of day, the one that many seconds after
    1970-01-01T00:00:00. *)
Theorem wire_response_parses (data : value) (w : Wire.response) :
  Wire.decode_response data = Some w ->
  Spec.times_ok w = true ->
  AbyssResponse.parse data = Ok (Spec.response w)
  /\ (forall t,
        Spec.is_date_time (Spec.parseTimestamp t) = true
        /\ Spec.seconds_since_epoch (Spec.parseTimestamp t) = t).
Proof.
  intros H Ht.
  split; [|intros t; split; [apply of_posix_is_date_time | apply seconds_of_posix]].
  revert H Ht.
  unfold Wire.decode_response, Spec.times_ok. destruct data; simpl; try discriminate.
  intros H Ht. decoded H. simpl in Ht.
  destruct (field_mapping _ _ _ _ E) as [ms [Hms [Hms_ok Hms_read]]].
  destruct (field_mapping _ _ _ _ E0) as [cs [Hcs [Hcs_ok Hcs_read]]].
  unfold AbyssResponse.validate, required. rewrite Hms, Hcs.
  unfold before, AbyssResponse._convert_enemies, AbyssResponse._convert_abyss_items.
  rewrite (comprehension_values _ _ Hms_ok), (comprehension_values _ _ Hcs_ok).
  rewrite (mapping_read (Wire.as_object Wire.decode_enemy) (call AbyssEnemy.validate)
             Spec.enemy (fun _ => true)) with (kvs := l);
    [| intros [] e He _; try discriminate; now apply enemy_read
     | exact Hms_read | apply forallb_true].
  rewrite (mapping_read (Wire.as_object Wire.decode_cycle) (call Abyss.validate)
             Spec.cycle Spec.cycle_times_ok) with (kvs := l0);
    [| intros [] c Hc Hc'; try discriminate; now apply cycle_read
     | exact Hcs_read | exact Ht].
  reflexivity.
Qed.

Lemma wire_response_parses_witness :
  AbyssResponse.parse Samples.regular
  = Ok (AbyssResponse.mk
          [AbyssEnemy.mk "https://api.ambr.top/assets/UI/monster/UI_MonsterIcon_Hili.png"
             21010101 true "Hilichurl";
           AbyssEnemy.mk "https://api.ambr.top/assets/UI/UI_Slime.png" 20010101 false "Slime"]
          [Abyss.mk 3 (mk_datetime 2024 3 1 1 59 59 0)
             (Blessing.mk "Blessing of the Abyssal Moon" "Tower_Buff_1" true)
             (AbyssData.mk None [])
             (AbyssData.mk None
                [Floor.mk 9
                   [Chamber.mk 1
                      (ChallengeTarget.mk "Remaining challenge time longer than {0} sec."
                         [180; 300; 420])
                      72 [21010101; 20010101] None]
                   [LeyLineDisorder.mk "Blessing of the Abyssal Moon" "Tower_Buff_1" true]
                   0 2])]).
Proof.
  refine (eq_trans (proj1 (wire_response_parses Samples.regular _ eq_refl eq_refl)) _).
  reflexivity.
Defined.

(** C1 as stated fails: this response has every required field, each of
    its type, and its [closeTime], a non-negative integer, is too far in
    the future for a [datetime], in whatever zone; the parse ends in a
    validation error. *)
Lemma wire_response_out_of_range :
  Wire.matches_schema Samples.far_future = true
  /\ AbyssResponse.parse Samples.far_future
     = Invalid [mk_error [Key "items"; Key "closeTime"] value_error].
Proof. split; reflexivity. Qed.

End WireConformance.

(** ** Failing whole *)

Section FailWhole.

Local Open Scope string_scope.

Lemma is_ok_ap {A B : Type} (rf : result (A -> B)) (ra : result A) :
  is_ok (rf <*> ra) = is_ok rf && is_ok ra.
Proof. destruct rf, ra; reflexivity. Qed.

Lemma is_ok_with_loc {A : Type} (i : loc_item) (r : result A) :
  is_ok (with_loc i r) = is_ok r.
Proof. destruct r; reflexivity. Qed.

Lemma is_ok_required {A : Type} (validate : value -> result A) (d : dict) (k : string) :
  is_ok (required d k validate) = true -> present validate d k.
Proof.
  unfold required, present. destruct (lookup k d) as [v|]; [|discriminate].
  rewrite is_ok_with_loc. intros H. now exists v.
Qed.

Lemma is_ok_bind {A B : Type} (r : result A) (k : A -> result B) :
  is_ok (bind r k) = true -> exists a, r = Ok a /\ is_ok (k a) = true.
Proof. destruct r as [a| |]; simpl; [|discriminate..]. intros H. now exists a. Qed.

Lemma is_ok_v_items {A : Type} (validate : value -> result A) (l : list value) (i : nat) :
  is_ok (v_items validate i l) = forallb (fun x => is_ok (validate x)) l.
Proof.
  revert i; induction l as [|x l IH]; intros i; [reflexivity|].
  cbn [v_items forallb]. now rewrite !is_ok_ap, is_ok_with_loc, IH.
Qed.

(** A list validates only if it is a list and every item validates. *)
Lemma is_ok_v_list {A : Type} (validate : value -> result A) (v : value) :
  is_ok (v_list validate v) = true ->
  exists l, v = VList l /\ Forall (fun x => is_ok (validate x) = true) l.
Proof.
  destruct v; try discriminate. simpl. rewrite is_ok_v_items. intros H.
  eexists; split; [reflexivity|]. now apply Forall_forall, forallb_forall.
Qed.

Lemma is_ok_v_model {A : Type} (validate : dict -> result A) (v : value) :
  is_ok (v_model validate v) = true -> exists d, v = VDict d /\ is_ok (validate d) = true.
Proof. destruct v; try discriminate. intros H. now eexists. Qed.

Lemma is_ok_call {A : Type} (validate : dict -> result A) (v : value) :
  is_ok (call validate v) = true -> exists d, v = VDict d /\ is_ok (validate d) = true.
Proof. destruct v; try discriminate. intros H. now eexists. Qed.

Lemma is_ok_for_each {A B : Type} (body : A -> result B) (l : list A) :
  is_ok (for_each body l) = true -> Forall (fun x => is_ok (body x) = true) l.
Proof.
  induction l as [|x l IH]; simpl; intros H; constructor.
  - now destruct (body x).
  - apply IH. destruct (body x); try discriminate. simpl in H.
    now destruct (for_each body l).
Qed.

(** Unfolding a model's validation into its fields. *)
Ltac fields H :=
  repeat (rewrite is_ok_ap in H; apply andb_prop in H; destruct H as [H ?]);
  repeat match goal with
         | F : is_ok (required _ _ _) = true |- _ => apply is_ok_required in F
         end.

Lemma enemy_whole (d : dict) :
  is_ok (AbyssEnemy.validate d) = true ->
  present (before AbyssEnemy._convert_icon_url v_str) d "icon" /\ present v_int d "id"
  /\ present v_bool d "link" /\ present v_str d "name".
Proof. unfold AbyssEnemy.validate. intros H. fields H. auto. Qed.

Lemma blessing_whole (d : dict) :
  is_ok (Blessing.validate d) = true ->
  present (before Blessing._format_description v_str) d "description"
  /\ present v_str d "levelConfigName" /\ present v_bool d "visible".
Proof. unfold Blessing.validate. intros H. fields H. auto. Qed.

Lemma ley_line_disorder_whole (d : dict) :
  is_ok (LeyLineDisorder.validate d) = true ->
  present (before LeyLineDisorder._format_description v_str) d "description"
  /\ present v_str d "levelConfigName" /\ present v_bool d "visible".
Proof. unfold LeyLineDisorder.validate. intros H. fields H. auto. Qed.

Lemma challenge_target_whole (d : dict) :
  is_ok (ChallengeTarget.validate d) = true ->
  present v_str d "type" /\ present (v_list v_int) d "values".
Proof. unfold ChallengeTarget.validate. intros H. fields H. auto. Qed.

Lemma chamber_whole (d : dict) :
  is_ok (Chamber.validate d) = true ->
  present v_int d "id" /\ present (v_model ChallengeTarget.validate) d "challengeTarget"
  /\ present v_int d "monsterLevel" /\ present (v_list v_int) d "firstMonsterList".
Proof. unfold Chamber.validate. intros H. fields H. auto. Qed.

Lemma floor_whole (d : dict) :
  is_ok (Floor.validate d) = true ->
  present v_int d "id" /\ present (v_list (v_model Chamber.validate)) d "chamberList"
  /\ present (v_list (v_model LeyLineDisorder.validate)) d "leyLineDisorder"
  /\ present v_int d "overrideMonsterLevel" /\ present v_int d "teamNum".
Proof. unfold Floor.validate. intros H. fields H. auto 6. Qed.

Lemma abyss_data_whole (d : dict) :
  is_ok (AbyssData.validate d) = true ->
  present (v_list (v_model Floor.validate)) d "floorList".
Proof. unfold AbyssData.validate. intros H. fields H. auto. Qed.

Lemma abyss_whole (d : dict) :
  is_ok (Abyss.validate d) = true ->
  present v_int d "id" /\ present (before Abyss._format_close_time v_instance) d "closeTime"
  /\ present (v_model Blessing.validate) d "blessing"
  /\ present (v_model AbyssData.validate) d "entrance"
  /\ present (v_model AbyssData.validate) d "schedule".
Proof. unfold Abyss.validate. intros H. fields H. auto 6. Qed.

Lemma response_whole (data : value) :
  is_ok (AbyssResponse.parse data) = true ->
  exists d, data = VDict d
    /\ present (before AbyssResponse._convert_enemies v_instance) d "monsterList"
    /\ present (before AbyssResponse._convert_abyss_items v_instance) d "items".
Proof.
  unfold AbyssResponse.parse. intros H. apply is_ok_call in H as [d [-> H]].
  exists d. split; [reflexivity|]. unfold AbyssResponse.validate in H. fields H. auto.
Qed.

Lemma enemies_whole (m : dict) :
  dict_ok m ->
  is_ok (AbyssResponse._convert_enemies (VDict m)) = true ->
  Forall (fun x => is_ok (call AbyssEnemy.validate x) = true) (values m).
Proof.
  intros Hm. unfold AbyssResponse._convert_enemies. rewrite (comprehension_values _ _ Hm).
  apply is_ok_for_each.
Qed.

Lemma cycles_whole (m : dict) :
  dict_ok m ->
  is_ok (AbyssResponse._convert_abyss_items (VDict m)) = true ->
  Forall (fun x => is_ok (call Abyss.validate x) = true) (values m).
Proof.
  intros Hm. unfold AbyssResponse._convert_abyss_items.
  rewrite (comprehension_values _ _ Hm). apply is_ok_for_each.
Qed.

(** *** Where a line error ends up *)

Lemma reports_ap_l {A B : Type} (e : line_error) (rf : result (A -> B)) (ra : result A) :
  reports e rf -> reports e (rf <*> ra).
Proof.
  destruct rf, ra; simpl; auto; try contradiction. intros H. apply in_or_app. now left.
Qed.

Lemma reports_ap_r {A B : Type} (e : line_error) (rf : result (A -> B)) (ra : result A) :
  reports e ra -> reports e (rf <*> ra).
Proof.
  destruct rf, ra; simpl; auto; try contradiction. intros H. apply in_or_app. now right.
Qed.

Lemma reports_with_loc {A : Type} (e : line_error) (i : loc_item) (r : result A) :
  reports e r -> reports (prefix_loc i e) (with_loc i r).
Proof. destruct r; simpl; auto. apply in_map. Qed.

Lemma reports_bind {A B : Type} (e : line_error) (r : result A) (k : A -> result B) :
  reports e r -> reports e (bind r k).
Proof. destruct r; simpl; auto; contradiction. Qed.

Lemma reports_missing {A : Type} (validate : value -> result A) (d : dict) (k : string) :
  lookup k d = None -> reports (mk_error [Key k] missing) (required d k validate).
Proof. intros H. unfold required. rewrite H. simpl. now left. Qed.

Lemma reports_required {A : Type} (e : line_error) (validate : value -> result A)
    (d : dict) (k : string) (v : value) :
  lookup k d = Some v -> reports e (validate v) ->
  reports (prefix_loc (Key k) e) (required d k validate).
Proof. intros H He. unfold required. rewrite H. now apply reports_with_loc. Qed.

Lemma reports_items {A : Type} (e : line_error) (validate : value -> result A)
    (l : list value) (n : nat) (v : value) :
  nth_error l n = Some v -> reports e (validate v) ->
  forall i, reports (prefix_loc (Idx (i + n)) e) (v_items validate i l).
Proof.
  revert n; induction l as [|x l IH]; intros [|n] Hn He i; try discriminate; cbn [v_items].
  - inversion Hn; subst. apply reports_ap_l, reports_ap_r. rewrite Nat.add_0_r.
    now apply reports_with_loc.
  - apply reports_ap_r. rewrite <- plus_n_Sm. apply (IH n Hn He (S i)).
Qed.

Lemma reports_for_each {A B : Type} (e : line_error) (body : A -> result B)
    (pre post : list A) (x : A) :
  Forall (fun y => is_ok (body y) = true) pre ->
  reports e (body x) -> reports e (for_each body (pre ++ x :: post)).
Proof.
  intros Hpre He. induction Hpre as [|y pre Hy _ IH]; simpl.
  - now apply reports_bind.
  - destruct (body y); try discriminate. simpl. now apply reports_bind.
Qed.

Lemma reports_not_ok {A : Type} (e : line_error) (r : result A) :
  reports e r -> is_ok r = false.
Proof. now destruct r. Qed.

Lemma reports_listed {A : Type} (e : line_error) (r : result A) :
  reports e r -> (forall x, r <> Raised x) -> exists errs, r = Invalid errs /\ In e errs.
Proof.
  destruct r as [a|errs|x]; simpl; intros H Hr; [contradiction | now exists errs |].
  now destruct (Hr x).
Qed.

(** A floor without [chamberList], from the floor up to the cycle. *)
Lemma floor_reports_chambers (fd : dict) :
  lookup "chamberList" fd = None ->
  reports (mk_error [Key "chamberList"] missing) (Floor.validate fd).
Proof.
  intros H. unfold Floor.validate. do 3 apply reports_ap_l. apply reports_ap_r.
  now apply reports_missing.
Qed.

Lemma abyss_data_reports_chambers (sd : dict) (fl : list value) (i : nat) (fd : dict) :
  lookup "floorList" sd = Some (VList fl) ->
  nth_error fl i = Some (VDict fd) ->
  lookup "chamberList" fd = None ->
  reports (mk_error [Key "floorList"; Idx i; Key "chamberList"] missing)
    (AbyssData.validate sd).
Proof.
  intros Hsd Hfl Hfd. unfold AbyssData.validate. apply reports_ap_r.
  apply (reports_required (mk_error [Idx i; Key "chamberList"] missing) _ _ _ _ Hsd).
  apply (reports_items (mk_error [Key "chamberList"] missing) _ _ _ _ Hfl
           (floor_reports_chambers fd Hfd) 0).
Qed.

Lemma abyss_reports_chambers (item : dict) (part : string) (sd : dict) (fl : list value)
    (i : nat) (fd : dict) :
  part = "entrance" \/ part = "schedule" ->
  lookup part item = Some (VDict sd) ->
  lookup "floorList" sd = Some (VList fl) ->
  nth_error fl i = Some (VDict fd) ->
  lookup "chamberList" fd = None ->
  reports (mk_error [Key part; Key "floorList"; Idx i; Key "chamberList"] missing)
    (Abyss.validate item).
Proof.
  intros Hpart Hitem Hsd Hfl Hfd. unfold Abyss.validate.
  pose proof (abyss_data_reports_chambers sd fl i fd Hsd Hfl Hfd) as Hr.
  destruct Hpart as [-> | ->].
  - apply reports_ap_l, reports_ap_r.
    now apply (reports_required
                 (mk_error [Key "floorList"; Idx i; Key "chamberList"] missing) _ _ _ _ Hitem).
  - apply reports_ap_r.
    now apply (reports_required
                 (mk_error [Key "floorList"; Idx i; Key "chamberList"] missing) _ _ _ _ Hitem).
Qed.

Lemma response_reports_chambers (d cycles pre : dict) (k : string) (item post : dict)
    (part : string) (sd : dict) (fl : list value) (i : nat) (fd : dict) :
  lookup "items" d = Some (VDict cycles) ->
  dict_ok cycles ->
  cycles = (pre ++ (k, VDict item) :: post)%list ->
  Forall (fun kv => is_ok (call Abyss.validate (snd kv)) = true) pre ->
  part = "entrance" \/ part = "schedule" ->
  lookup part item = Some (VDict sd) ->
  lookup "floorList" sd = Some (VList fl) ->
  nth_error fl i = Some (VDict fd) ->
  lookup "chamberList" fd = None ->
  reports (mk_error [Key "items"; Key part; Key "floorList"; Idx i; Key "chamberList"] missing)
    (AbyssResponse.parse (VDict d)).
Proof.
  intros Hd Hok Hcycles Hpre Hpart Hitem Hsd Hfl Hfd.
  unfold AbyssResponse.parse, call, AbyssResponse.validate. apply reports_ap_r.
  apply (reports_required
           (mk_error [Key part; Key "floorList"; Idx i; Key "chamberList"] missing)
           _ _ _ _ Hd).
  unfold before. apply reports_bind. unfold AbyssResponse._convert_abyss_items.
  rewrite (comprehension_values _ _ Hok). subst cycles. unfold values.
  rewrite map_app. cbn [map snd]. apply reports_for_each.
  - apply Forall_map. exact Hpre.
  - now apply (abyss_reports_chambers item part sd fl i fd).
Qed.




End FailWhole.

(** ** Assignment *)

Section Assignment.

Local Open Scope string_scope.

(** C8, amended.  None of the nine classes sets a configuration, so
    none is frozen: assigning to a field of a constructed entity is
    accepted and stores the value.  On a Blessing and on a response the
    stored field is the new value and the other fields are as they
    were. *)
Theorem entities_not_frozen :
  (forall (T V : Type) (name : string) (update : V -> T -> T) (self : T) (v : V),
     Forall (fun cfg => frozen cfg = false
                        /\ setattr cfg name update self v = Ok (update v self))
       [AbyssEnemy.model_config; Blessing.model_config; LeyLineDisorder.model_config;
        ChallengeTarget.model_config; Chamber.model_config; Floor.model_config;
        AbyssData.model_config; Abyss.model_config; AbyssResponse.model_config])
  /\ (forall (b : Blessing.t) (v : string),
        exists b',
          setattr Blessing.model_config "description"
            (fun v b => Blessing.mk v (Blessing.level_config_name b) (Blessing.visible b)) b v
          = Ok b'
          /\ Blessing.description b' = v
          /\ Blessing.level_config_name b' = Blessing.level_config_name b
          /\ Blessing.visible b' = Blessing.visible b)
  /\ (forall (r : AbyssResponse.t) (es : list AbyssEnemy.t),
        exists r',
          setattr AbyssResponse.model_config "enemies"
            (fun es r => AbyssResponse.mk es (AbyssResponse.abyss_items r)) r es
          = Ok r'
          /\ AbyssResponse.enemies r' = es
          /\ AbyssResponse.abyss_items r' = AbyssResponse.abyss_items r).
Proof.
  split; [intros; repeat constructor|].
  split; intros x v; eexists; (split; [reflexivity|]); repeat split.
Qed.

(** C8 as stated fails: a Blessing parsed from a payload, then assigned
    to, has another [visible] than it was built with. *)
Lemma blessing_reassigned :
  exists b b',
    call Blessing.validate Samples.blessing = Ok b
    /\ setattr Blessing.model_config "visible"
         (fun v b => Blessing.mk (Blessing.description b) (Blessing.level_config_name b) v)
         b false
       = Ok b'
    /\ Blessing.visible b = true
    /\ Blessing.visible b' = false.
Proof. do 2 eexists. repeat split. Qed.

End Assignment.

(** ** The timestamps the validators take *)

Section AcceptedTimestamps.

Local Open Scope string_scope.

(** Only the timestamp 0 has the epoch as its date-time. *)
Lemma of_posix_epoch (t : Z) : of_posix t = epoch -> t = 0%Z.
Proof.
  unfold of_posix, civil_from_days, epoch. cbv zeta.
  set (days := (t / 86400)%Z). set (s := (t mod 86400)%Z).
  assert (Ht : (t = 86400 * days + s /\ 0 <= s < 86400)%Z)
    by (subst days s; Z.div_mod_to_equations; lia).
  clearbody days s.
  set (z := (days + 719468)%Z).
  set (era := (z / 146097)%Z). set (doe := (z - era * 146097)%Z).
  assert (He : (0 <= doe <= 146096 /\ z = era * 146097 + doe)%Z)
    by (subst doe era; Z.div_mod_to_equations; lia).
  clearbody doe. clearbody era.
  set (yoe := ((doe - doe / 1460 + doe / 36524 - doe / 146096) / 365)%Z).
  assert (Hy : (0 <= yoe <= 399)%Z) by (subst yoe; Z.div_mod_to_equations; lia).
  set (doy := (doe - (365 * yoe + yoe / 4 - yoe / 100))%Z).
  set (mp := ((5 * doy + 2) / 153)%Z).
  intros H.
  pose proof (f_equal year H) as Hyear. pose proof (f_equal month H) as Hmonth.
  pose proof (f_equal day H) as Hday. pose proof (f_equal hour H) as Hh.
  pose proof (f_equal minute H) as Hm. pose proof (f_equal second H) as Hs.
  cbn [year month day hour minute second] in Hyear, Hmonth, Hday, Hh, Hm, Hs. clear H.
  assert (s = 0%Z) by (Z.div_mod_to_equations; lia). subst s.
  destruct (mp <? 10)%Z eqn:Hmp; [apply Z.ltb_lt in Hmp | apply Z.ltb_ge in Hmp].
  - subst z mp doy yoe. Z.div_mod_to_equations. lia.
  - replace (mp - 9 <=? 2)%Z with true in Hyear by (symmetry; apply Z.leb_le; lia).
    subst z mp doy yoe. Z.div_mod_to_equations. lia.
Qed.

Lemma is_ok_python {A : Type} (r : exn + A) :
  is_ok (python r) = match r with inr _ => true | inl _ => false end.
Proof. destruct r as [[]|]; reflexivity. Qed.

Lemma required_int_not_raised (d : dict) (k : string) (e : exn) :
  required d k v_int <> Raised e.
Proof.
  unfold required. destruct (lookup k d) as [v|]; [|discriminate].
  destruct v as [| |z|s| |]; simpl; try discriminate.
  destruct (_ <? _)%N; [discriminate|]. destruct (str_as_int s); discriminate.
Qed.

(** X1.  With UTC as the local zone, [_format_close_time] takes, among
    the integers, exactly the timestamps from 0001-01-02T00:00:00 to
    9999-12-31T23:59:59, and gives their date-time.  On [None], a
    string, a list or an object it raises [TypeError], which no
    validation error wraps: an Abyss whose [closeTime] is one of these
    ends in [TypeError] whatever its other fields are. *)
Theorem close_time_accepted :
  (forall t, is_ok (Abyss._format_close_time (VInt t)) = in_range t)
  /\ (forall t, in_range t = true -> Abyss._format_close_time (VInt t) = Ok (of_posix t))
  /\ (forall v,
        match v with
        | VNone | VStr _ | VList _ | VDict _ =>
            Abyss._format_close_time v = Raised TypeError
        | VBool _ | VInt _ => True
        end)
  /\ (forall d v,
        lookup "closeTime" d = Some v ->
        match v with
        | VNone | VStr _ | VList _ | VDict _ => Abyss.validate d = Raised TypeError
        | VBool _ | VInt _ => True
        end).
Proof.
  assert (Hraise : forall v, as_index v = None ->
                             Abyss._format_close_time v = Raised TypeError).
  { intros v Hv. unfold Abyss._format_close_time, fromtimestamp. now rewrite Hv. }
  assert (Hwhole : forall d v, lookup "closeTime" d = Some v -> as_index v = None ->
                               Abyss.validate d = Raised TypeError).
  { intros d v Hd Hv. unfold Abyss.validate.
    assert (Hc : required d "closeTime" (before Abyss._format_close_time v_instance)
                 = Raised TypeError).
    { unfold required, before. rewrite Hd, (Hraise v Hv). reflexivity. }
    rewrite Hc. pose proof (required_int_not_raised d "id") as Hid.
    destruct (required d "id" v_int) as [i|errs|e]; [reflexivity | reflexivity |].
    now destruct (Hid e). }
  split; [|split; [|split]].
  - intros t. unfold Abyss._format_close_time. rewrite is_ok_python.
    destruct (in_range t) eqn:Ht.
    + now rewrite (fromtimestamp_in_range t Ht).
    + destruct (fromtimestamp (VInt t)) as [e|dt] eqn:Hf; [reflexivity|].
      now destruct (fromtimestamp_out_of_range t Ht dt).
  - intros t Ht. unfold Abyss._format_close_time.
    now rewrite (fromtimestamp_in_range t Ht).
  - intros v. destruct v; try exact I; now apply Hraise.
  - intros d v Hd. destruct v; try exact I; now apply (Hwhole d _ Hd).
Qed.

Lemma close_time_accepted_witness :
  Abyss.validate [("id", VInt 3); ("closeTime", VStr "1709258399")] = Raised TypeError.
Proof.
  apply (proj2 (proj2 (proj2 close_time_accepted))
           [("id", VInt 3); ("closeTime", VStr "1709258399")] (VStr "1709258399")).
  reflexivity.
Defined.



End AcceptedTimestamps.

(** ** Icon URLs, again *)

Section IconUrlShape.

Local Open Scope string_scope.

Lemma append_inj_l (a b c : string) : a ++ b = a ++ c -> b = c.
Proof. induction a as [|x a IH]; simpl; intros H; [exact H | inversion H; auto]. Qed.

Lemma length_append (a b : string) :
  String.length (a ++ b) = (String.length a + String.length b)%nat.
Proof. induction a as [|x a IH]; simpl; [reflexivity | now rewrite IH]. Qed.

Lemma append_inj_r (a b c : string) : a ++ c = b ++ c -> a = b.
Proof.
  revert b; induction a as [|x a IH]; intros [|y b] H; simpl in H.
  - reflexivity.
  - apply (f_equal String.length) in H. simpl in H. rewrite length_append in H. lia.
  - apply (f_equal String.length) in H. simpl in H. rewrite length_append in H. lia.
  - inversion H; subst. f_equal. now apply IH.
Qed.

Lemma icon_url_of_string (raw : string) :
  AbyssEnemy._convert_icon_url (VStr raw)
  = Ok (VStr (if contains "MonsterIcon" raw
              then "https://api.ambr.top/assets/UI/monster/" ++ raw ++ ".png"
              else "https://api.ambr.top/assets/UI/" ++ raw ++ ".png")).
Proof.
  unfold AbyssEnemy._convert_icon_url. simpl.
  destruct (contains "MonsterIcon" raw); reflexivity.
Qed.

(** X3.  The icon URL tells the file name: two strings with the same
    URL are the same string. *)
Theorem convert_icon_url_injective (raw1 raw2 : string) :
  AbyssEnemy._convert_icon_url (VStr raw1) = AbyssEnemy._convert_icon_url (VStr raw2) ->
  raw1 = raw2.
Proof.
  rewrite !icon_url_of_string.
  set (u1 := if contains "MonsterIcon" raw1 then _ else _).
  set (u2 := if contains "MonsterIcon" raw2 then _ else _).
  intros H. assert (Hurl : u1 = u2) by congruence. clear H. subst u1 u2.
  assert (Hsame : forall base a b, base ++ a ++ ".png" = base ++ b ++ ".png" -> a = b).
  { intros base a b E. apply append_inj_l in E. now apply append_inj_r in E. }
  assert (Hmixed : forall a b,
             contains "MonsterIcon" a = true -> contains "MonsterIcon" b = false ->
             "https://api.ambr.top/assets/UI/monster/" ++ a ++ ".png"
             = "https://api.ambr.top/assets/UI/" ++ b ++ ".png" -> False).
  { intros a b Ha Hb E.
    assert (Eb : ("monster/" ++ a) ++ ".png" = b ++ ".png")
      by exact (append_inj_l "https://api.ambr.top/assets/UI/"
                  (("monster/" ++ a) ++ ".png") (b ++ ".png") E).
    apply append_inj_r in Eb. subst b.
    apply contains_spec in Ha as (pre & post & ->).
    assert (Hb' : contains "MonsterIcon" ("monster/" ++ pre ++ "MonsterIcon" ++ post) = true).
    { apply contains_spec. exists ("monster/" ++ pre), post. now rewrite append_assoc. }
    congruence. }
  destruct (contains "MonsterIcon" raw1) eqn:H1, (contains "MonsterIcon" raw2) eqn:H2.
  - now apply (Hsame "https://api.ambr.top/assets/UI/monster/").
  - now destruct (Hmixed raw1 raw2 H1 H2 Hurl).
  - now destruct (Hmixed raw2 raw1 H2 H1 (eq_sym Hurl)).
  - now apply (Hsame "https://api.ambr.top/assets/UI/").
Qed.

Lemma convert_icon_url_injective_witness : "UI_MonsterIcon_Hili" = "UI_MonsterIcon_Hili".
Proof.
  apply (convert_icon_url_injective "UI_MonsterIcon_Hili" "UI_MonsterIcon_Hili").
  reflexivity.
Defined.

(** The line errors of a field whose validation either succeeds or
    fails on the spot. *)
Lemma leaf_errors_at {A : Type} (validate : value -> result A) (d : dict) (k : string)
    (errs : list line_error) :
  (forall v es, validate v = Invalid es -> exists t, es = [mk_error [] t]) ->
  required d k validate = Invalid errs ->
  exists t, errs = [mk_error [Key k] t].
Proof.
  intros Hleaf. unfold required. destruct (lookup k d) as [v|].
  - destruct (validate v) as [a|es|e] eqn:Hv; simpl; intros H; inversion H; subst.
    destruct (Hleaf v es Hv) as [t ->]. now exists t.
  - simpl. intros H; inversion H. now exists missing.
Qed.

Lemma v_int_leaf (v : value) (es : list line_error) :
  v_int v = Invalid es -> exists t, es = [mk_error [] t].
Proof.
  destruct v as [| |z|s| |]; simpl; try discriminate;
    try (intros H; inversion H; eexists; reflexivity).
  destruct (_ <? _)%N; [intros H; inversion H; eexists; reflexivity|].
  destruct (str_as_int s); [discriminate|]. intros H; inversion H; eexists; reflexivity.
Qed.

Lemma v_bool_leaf (v : value) (es : list line_error) :
  v_bool v = Invalid es -> exists t, es = [mk_error [] t].
Proof.
  destruct v as [| |z|s| |]; simpl; try discriminate;
    try (intros H; inversion H; eexists; reflexivity).
  - destruct z as [|[]|]; try discriminate; intros H; inversion H; eexists; reflexivity.
  - destruct (str_as_bool s); [discriminate|]. intros H; inversion H; eexists; reflexivity.
Qed.

Lemma v_str_leaf (v : value) (es : list line_error) :
  v_str v = Invalid es -> exists t, es = [mk_error [] t].
Proof.
  destruct v; simpl; try discriminate; intros H; inversion H; eexists; reflexivity.
Qed.

Lemma icon_outcome (v : value) :
  match v with
  | VNone | VBool _ | VInt _ => AbyssEnemy._convert_icon_url v = Raised TypeError
  | VStr _ | VList _ | VDict _ => exists url, AbyssEnemy._convert_icon_url v = Ok (VStr url)
  end.
Proof.
  destruct v; unfold AbyssEnemy._convert_icon_url; simpl; try reflexivity; eexists; reflexivity.
Qed.

Lemma icon_leaf (v : value) (es : list line_error) :
  before AbyssEnemy._convert_icon_url v_str v = Invalid es -> False.
Proof.
  unfold before. pose proof (icon_outcome v) as H.
  destruct v; try (rewrite H; discriminate); destruct H as [url ->]; discriminate.
Qed.

Lemma in_ap_invalid {A B : Type} (rf : result (A -> B)) (ra : result A)
    (errs : list line_error) (e : line_error) :
  rf <*> ra = Invalid errs -> In e errs ->
  (exists e1, rf = Invalid e1 /\ In e e1) \/ (exists e2, ra = Invalid e2 /\ In e e2).
Proof.
  destruct rf as [f|e1|x], ra as [a|e2|y]; simpl; intros H Hin; inversion H; subst.
  - right. now exists errs.
  - left. now exists errs.
  - apply in_app_or in Hin as [Hin|Hin]; [left; now exists e1 | right; now exists e2].
Qed.

Lemma icon_errors (d : dict) (errs : list line_error) :
  required d "icon" (before AbyssEnemy._convert_icon_url v_str) = Invalid errs ->
  errs = [mk_error [Key "icon"] missing].
Proof.
  unfold required. destruct (lookup "icon" d) as [v|].
  - destruct (before AbyssEnemy._convert_icon_url v_str v) as [a|es|x] eqn:Hv;
      simpl; try discriminate. now destruct (icon_leaf v es Hv).
  - simpl. intros H; now inversion H.
Qed.

(** X4.  The icon validator never answers with a validation error: on
    [None], a bool or an int it raises [TypeError], and on a string, a
    list or an object it returns a URL.  So the only line error an enemy
    can have at [icon] is [missing]. *)
Theorem icon_never_mistyped :
  (forall v,
     match v with
     | VNone | VBool _ | VInt _ => AbyssEnemy._convert_icon_url v = Raised TypeError
     | VStr _ | VList _ | VDict _ =>
         exists url, AbyssEnemy._convert_icon_url v = Ok (VStr url)
     end)
  /\ (forall d errs e,
        AbyssEnemy.validate d = Invalid errs -> In e errs -> loc e = [Key "icon"] ->
        kind e = missing).
Proof.
  split; [exact icon_outcome|].
  intros d errs e. unfold AbyssEnemy.validate. intros H Hin Hloc.
  apply (in_ap_invalid _ _ _ e H) in Hin as [(e1 & H1 & Hin) | (e2 & H2 & Hin)].
  - apply (in_ap_invalid _ _ _ e H1) in Hin as [(e1' & H1' & Hin) | (e2 & H2 & Hin)].
    + apply (in_ap_invalid _ _ _ e H1') in Hin as [(e1'' & H1'' & Hin) | (e2 & H2 & Hin)].
      * apply (in_ap_invalid _ _ _ e H1'') in Hin as [(e0 & H0 & _) | (e2 & H2 & Hin)];
          [discriminate|].
        apply icon_errors in H2. subst e2. destruct Hin as [<-|[]]. reflexivity.
      * apply (leaf_errors_at _ _ _ _ v_int_leaf) in H2 as [t ->].
        destruct Hin as [<-|[]]. discriminate.
    + apply (leaf_errors_at _ _ _ _ v_bool_leaf) in H2 as [t ->].
      destruct Hin as [<-|[]]. discriminate.
  - apply (leaf_errors_at _ _ _ _ v_str_leaf) in H2 as [t ->].
    destruct Hin as [<-|[]]. discriminate.
Qed.

Lemma icon_never_mistyped_witness :
  kind (mk_error [Key "icon"] missing) = missing.
Proof.
  apply (proj2 icon_never_mistyped [("id", VStr "x"); ("link", VBool true); ("name", VInt 1)]
           [mk_error [Key "icon"] missing; mk_error [Key "id"] int_parsing;
            mk_error [Key "name"] string_type]);
    [reflexivity | now left | reflexivity].
Defined.

End IconUrlShape.

(** ** What the two top-level validators take, and how they fail *)

Section Converters.

Local Open Scope string_scope.

Lemma chars_cons (c : ascii) (s : string) : exists g gs, chars (String c s) = g :: gs.
Proof.
  simpl. destruct (chars s) as [|[|c' g] gs]; try (eexists; eexists; reflexivity).
  destruct (is_continuation c'); eexists; eexists; reflexivity.
Qed.

Lemma index_In {A : Type} (l : list A) (z : Z) (y : A) : index l z = Some y -> In y l.
Proof.
  unfold index. destruct (_ && _); [apply nth_error_In|].
  destruct (_ && _); [apply nth_error_In | discriminate].
Qed.

(** The comprehension of both validators, over any item parser. *)
Lemma comprehension_shapes {A : Type} (validate : dict -> result A) (v : value) :
  is_ok (item_ids <- python (iter v) ;;
         for_each (fun item_id => x <- python (getitem v item_id) ;; call validate x)
           item_ids) = true ->
  (exists d, v = VDict d) \/ v = VList [] \/ v = VStr "".
Proof.
  destruct v as [|b|z|s|l|d]; try discriminate.
  - destruct s as [|c s]; [auto|]. intros H. exfalso.
    cbn [iter python bind] in H. destruct (chars_cons c s) as (g & gs & Hg).
    rewrite Hg in H. discriminate.
  - destruct l as [|x l]; [auto|]. intros H. exfalso.
    cbn [iter python bind] in H. apply is_ok_for_each in H. rewrite Forall_forall in H.
    pose proof (H x (or_introl eq_refl)) as Hx.
    apply is_ok_bind in Hx as (y & Hy & Hcall).
    apply is_ok_call in Hcall as (d & -> & _).
    unfold getitem in Hy. destruct (as_index x) as [z|]; [|discriminate].
    destruct (index (x :: l) z) as [y|] eqn:Hz; [|discriminate].
    inversion Hy; subst y. apply index_In in Hz.
    specialize (H _ Hz). discriminate.
  - intros _. left. now exists d.
Qed.

(** X5.  [_convert_enemies] and [_convert_abyss_items] succeed on an
    object, on the empty array and on the empty string, the last two
    giving the empty list, and on nothing else: a non-empty array or
    string, a number, a bool or [None] never gives a list. *)
Theorem converters_accept :
  (forall v, is_ok (AbyssResponse._convert_enemies v) = true ->
             (exists d, v = VDict d) \/ v = VList [] \/ v = VStr "")
  /\ (forall v, is_ok (AbyssResponse._convert_abyss_items v) = true ->
                (exists d, v = VDict d) \/ v = VList [] \/ v = VStr "")
  /\ AbyssResponse._convert_enemies (VList []) = Ok []
  /\ AbyssResponse._convert_enemies (VStr "") = Ok []
  /\ AbyssResponse._convert_abyss_items (VList []) = Ok []
  /\ AbyssResponse._convert_abyss_items (VStr "") = Ok [].
Proof.
  split; [exact (comprehension_shapes AbyssEnemy.validate)|].
  split; [exact (comprehension_shapes Abyss.validate)|].
  repeat split.
Qed.

Lemma converters_accept_witness :
  (exists d, Samples.enemies = VDict d) \/ Samples.enemies = VList []
  \/ Samples.enemies = VStr "".
Proof. apply (proj1 converters_accept Samples.enemies). reflexivity. Defined.

Lemma for_each_first_failure {A B : Type} (body : A -> result B) (pre post : list A) (x : A) :
  Forall (fun y => is_ok (body y) = true) pre ->
  (forall errs, body x = Invalid errs -> for_each body (pre ++ x :: post) = Invalid errs)
  /\ (forall e, body x = Raised e -> for_each body (pre ++ x :: post) = Raised e).
Proof.
  intros Hpre. induction Hpre as [|y pre Hy _ [IHi IHr]]; simpl.
  - split; intros e Hx; now rewrite Hx.
  - destruct (body y); try discriminate. simpl.
    split; intros e Hx; [rewrite (IHi e Hx) | rewrite (IHr e Hx)]; reflexivity.
Qed.

Lemma converter_first_failure {A : Type} (validate : dict -> result A)
    (d pre : dict) (k : string) (x : value) (post : dict) :
  dict_ok d ->
  d = (pre ++ (k, x) :: post)%list ->
  Forall (fun kv => is_ok (call validate (snd kv)) = true) pre ->
  (forall errs, call validate x = Invalid errs ->
     for_each (call validate) (values d) = Invalid errs)
  /\ (forall e, call validate x = Raised e ->
        for_each (call validate) (values d) = Raised e).
Proof.
  intros Hd -> Hpre. unfold values. rewrite map_app. cbn [map snd].
  apply for_each_first_failure. now apply Forall_map.
Qed.

(** X6.  The two validators stop at the first value that does not
    parse: its failure is the failure of the field, whatever the later
    values are.  Its line errors come out with the field's alias in front
    and the path inside the item behind; the key of the item is not in
    the path. *)
Theorem first_failure_wins (d pre : dict) (k : string) (x : value) (post : dict) :
  dict_ok d ->
  d = (pre ++ (k, x) :: post)%list ->
  (Forall (fun kv => is_ok (call Abyss.validate (snd kv)) = true) pre ->
   (forall errs,
      call Abyss.validate x = Invalid errs ->
      AbyssResponse._convert_abyss_items (VDict d) = Invalid errs
      /\ forall data,
           lookup "items" data = Some (VDict d) ->
           required data "items" (before AbyssResponse._convert_abyss_items v_instance)
           = Invalid (map (prefix_loc (Key "items")) errs))
   /\ (forall e,
         call Abyss.validate x = Raised e ->
         AbyssResponse._convert_abyss_items (VDict d) = Raised e))
  /\ (Forall (fun kv => is_ok (call AbyssEnemy.validate (snd kv)) = true) pre ->
      (forall errs,
         call AbyssEnemy.validate x = Invalid errs ->
         AbyssResponse._convert_enemies (VDict d) = Invalid errs
         /\ forall data,
              lookup "monsterList" data = Some (VDict d) ->
              required data "monsterList" (before AbyssResponse._convert_enemies v_instance)
              = Invalid (map (prefix_loc (Key "monsterList")) errs))
      /\ (forall e,
            call AbyssEnemy.validate x = Raised e ->
            AbyssResponse._convert_enemies (VDict d) = Raised e)).
Proof.
  intros Hd Hsplit. split; intros Hpre.
  - destruct (converter_first_failure Abyss.validate d pre k x post Hd Hsplit Hpre)
      as [Hi Hr].
    unfold AbyssResponse._convert_abyss_items. rewrite (comprehension_values _ _ Hd).
    split.
    + intros errs Hx. split; [now apply Hi|]. intros data Hdata.
      unfold required, before, AbyssResponse._convert_abyss_items.
      rewrite Hdata, (comprehension_values _ _ Hd), (Hi errs Hx). reflexivity.
    + intros e Hx. now apply Hr.
  - destruct (converter_first_failure AbyssEnemy.validate d pre k x post Hd Hsplit Hpre)
      as [Hi Hr].
    unfold AbyssResponse._convert_enemies. rewrite (comprehension_values _ _ Hd).
    split.
    + intros errs Hx. split; [now apply Hi|]. intros data Hdata.
      unfold required, before, AbyssResponse._convert_enemies.
      rewrite Hdata, (comprehension_values _ _ Hd), (Hi errs Hx). reflexivity.
    + intros e Hx. now apply Hr.
Qed.

Lemma first_failure_wins_witness :
  AbyssResponse._convert_enemies
    (VDict [("1", Samples.hilichurl); ("2", VDict [("icon", VStr "UI_Slime")]);
            ("3", VInt 0)])
  = Invalid [mk_error [Key "id"] missing; mk_error [Key "link"] missing;
             mk_error [Key "name"] missing].
Proof.
  refine (proj1 (proj1 (proj2 (first_failure_wins
            [("1", Samples.hilichurl); ("2", VDict [("icon", VStr "UI_Slime")]);
             ("3", VInt 0)]
            [("1", Samples.hilichurl)] "2" (VDict [("icon", VStr "UI_Slime")])
            [("3", VInt 0)] _ eq_refl) _) _ eq_refl)).
  - repeat constructor; simpl; intuition discriminate.
  - repeat constructor.
Defined.

End Converters.

(** ** Fields: which keys are read, which are told missing *)

Section Fields.

Local Open Scope string_scope.

Ltac by_alias H :=
  unfold agree_on in H; rewrite Forall_forall in H;
  unfold required, defaulted;
  rewrite !H by (simpl; auto 10); reflexivity.

(** X7.  Each model reads its input under the aliases of its fields and
    nowhere else: two objects that agree under the aliases validate
    alike, so the order of the keys does not count and a key that is no
    alias, a field's Python name included, is ignored. *)
Theorem only_aliases_read (d d' : dict) :
  (agree_on ["description"; "levelConfigName"; "visible"] d d' ->
   Blessing.validate d = Blessing.validate d'
   /\ LeyLineDisorder.validate d = LeyLineDisorder.validate d')
  /\ (agree_on ["type"; "values"] d d' ->
      ChallengeTarget.validate d = ChallengeTarget.validate d')
  /\ (agree_on ["id"; "challengeTarget"; "monsterLevel"; "firstMonsterList";
                "secondMonsterList"] d d' ->
      Chamber.validate d = Chamber.validate d')
  /\ (agree_on ["id"; "chamberList"; "leyLineDisorder"; "overrideMonsterLevel";
                "teamNum"] d d' ->
      Floor.validate d = Floor.validate d')
  /\ (agree_on ["openTime"; "floorList"] d d' ->
      AbyssData.validate d = AbyssData.validate d')
  /\ (agree_on ["id"; "closeTime"; "blessing"; "entrance"; "schedule"] d d' ->
      Abyss.validate d = Abyss.validate d')
  /\ (agree_on ["icon"; "id"; "link"; "name"] d d' ->
      AbyssEnemy.validate d = AbyssEnemy.validate d')
  /\ (agree_on ["monsterList"; "items"] d d' ->
      AbyssResponse.validate d = AbyssResponse.validate d')
  /\ (forall ks k v, ~ In k ks -> agree_on ks ((k, v) :: d) d).
Proof.
  split; [intros H; split;
          [unfold Blessing.validate | unfold LeyLineDisorder.validate]; by_alias H|].
  split; [intros H; unfold ChallengeTarget.validate; by_alias H|].
  split; [intros H; unfold Chamber.validate; by_alias H|].
  split; [intros H; unfold Floor.validate; by_alias H|].
  split; [intros H; unfold AbyssData.validate; by_alias H|].
  split; [intros H; unfold Abyss.validate; by_alias H|].
  split; [intros H; unfold AbyssEnemy.validate; by_alias H|].
  split; [intros H; unfold AbyssResponse.validate; by_alias H|].
  intros ks k v Hk. apply Forall_forall. intros k' Hk'. simpl.
  destruct (String.eqb_spec k' k) as [->|Hne]; [contradiction | reflexivity].
Qed.

Lemma only_aliases_read_witness :
  AbyssEnemy.validate
    [("rarity", VInt 5); ("name", VStr "Slime"); ("link", VBool false);
     ("id", VInt 20010101); ("icon", VStr "UI_Slime")]
  = AbyssEnemy.validate
      [("icon", VStr "UI_Slime"); ("id", VInt 20010101); ("link", VBool false);
       ("name", VStr "Slime")].
Proof.
  apply (proj1 (proj2 (proj2 (proj2 (proj2 (proj2 (proj2 (only_aliases_read _ _)))))))).
  repeat constructor.
Defined.

Lemma ap_ok_inv {A B : Type} (rf : result (A -> B)) (ra : result A) (b : B) :
  rf <*> ra = Ok b -> exists f a, rf = Ok f /\ ra = Ok a /\ b = f a.
Proof.
  destruct rf as [f| |], ra as [a| |]; simpl; intros H; inversion H. now exists f, a.
Qed.

(** X8.  The second wave of a parsed chamber is [None] when
    [secondMonsterList] is absent or null, and otherwise the validated
    list, the empty list included. *)
Theorem second_wave_optional (d : dict) (c : Chamber.t) :
  Chamber.validate d = Ok c ->
  match lookup "secondMonsterList" d with
  | None | Some VNone => Chamber.wave_two_enemies c = None
  | Some v => exists l, v_list v_int v = Ok l /\ Chamber.wave_two_enemies c = Some l
  end.
Proof.
  unfold Chamber.validate. intros H.
  apply ap_ok_inv in H as (f4 & w2 & H & Hw2 & ->).
  apply ap_ok_inv in H as (f3 & w1 & H & _ & ->).
  apply ap_ok_inv in H as (f2 & lv & H & _ & ->).
  apply ap_ok_inv in H as (f1 & ct & H & _ & ->).
  apply ap_ok_inv in H as (f0 & i & H & _ & ->).
  inversion H; subst f0. cbn [Chamber.wave_two_enemies]. clear H.
  unfold defaulted in Hw2. destruct (lookup "secondMonsterList" d) as [v|].
  - apply with_loc_ok_inv in Hw2. unfold v_optional in Hw2.
    destruct v; try (now inversion Hw2);
      apply ap_ok_inv in Hw2 as (g & l' & Hg & Hl & ->); inversion Hg; subst g;
      now exists l'.
  - now inversion Hw2.
Qed.

Lemma second_wave_optional_witness :
  exists l,
    v_list v_int (VList []) = Ok l
    /\ Chamber.wave_two_enemies
         (Chamber.mk 1 (ChallengeTarget.mk "{0}" [1]) 72 [21010101] (Some [])) = Some l.
Proof.
  apply (second_wave_optional
           [("id", VInt 1);
            ("challengeTarget", VDict [("type", VStr "{0}"); ("values", VList [VInt 1])]);
            ("monsterLevel", VInt 72); ("firstMonsterList", VList [VInt 21010101]);
            ("secondMonsterList", VList [])]).
  reflexivity.
Defined.

(** X9.  A model tells of every required field its input lacks, each as
    [missing] at the field's alias, all in one validation error; only an
    exception that is no validation error keeps them from the
    caller. *)
Theorem all_missing_reported (d : dict) :
  missing_reported ["description"; "levelConfigName"; "visible"] d (Blessing.validate d)
  /\ missing_reported ["description"; "levelConfigName"; "visible"] d
       (LeyLineDisorder.validate d)
  /\ missing_reported ["type"; "values"] d (ChallengeTarget.validate d)
  /\ missing_reported ["id"; "challengeTarget"; "monsterLevel"; "firstMonsterList"] d
       (Chamber.validate d)
  /\ missing_reported ["id"; "chamberList"; "leyLineDisorder"; "overrideMonsterLevel";
                       "teamNum"] d (Floor.validate d)
  /\ missing_reported ["floorList"] d (AbyssData.validate d)
  /\ missing_reported ["id"; "closeTime"; "blessing"; "entrance"; "schedule"] d
       (Abyss.validate d)
  /\ missing_reported ["icon"; "id"; "link"; "name"] d (AbyssEnemy.validate d)
  /\ missing_reported ["monsterList"; "items"] d (AbyssResponse.validate d).
Proof.
  unfold missing_reported, Blessing.validate, LeyLineDisorder.validate,
    ChallengeTarget.validate, Chamber.validate, Floor.validate, AbyssData.validate,
    Abyss.validate, AbyssEnemy.validate, AbyssResponse.validate.
  repeat split; repeat constructor; intros Hk;
    repeat first [ apply reports_ap_r; apply reports_missing; exact Hk
                 | apply reports_ap_l ].
Qed.

Lemma all_missing_reported_witness :
  missing_reported ["icon"; "id"; "link"; "name"] [("icon", VStr "UI_Slime")]
    (AbyssEnemy.validate [("icon", VStr "UI_Slime")]).
Proof.
  exact (proj1 (proj2 (proj2 (proj2 (proj2 (proj2 (proj2 (proj2
           (all_missing_reported [("icon", VStr "UI_Slime")]))))))))).
Defined.

End Fields.

(** ** Templates with no, several or malformed placeholders *)

Section FormatEdges.

Local Open Scope string_scope.

Lemma format_repeated (arg : string) (segs : list string) (num : numbering) :
  num = Unset \/ num = Manual ->
  Forall (fun s => plain s = true) segs ->
  format_from arg Text num (join "{0}" segs) = Some (inr (join arg segs)).
Proof.
  intros Hnum Hsegs. revert num Hnum.
  induction Hsegs as [|x segs Hx Hsegs IH]; intros num Hnum; [reflexivity|].
  destruct segs as [|y l]; [now apply format_plain|].
  change (join "{0}" (x :: y :: l)) with (x ++ "{0}" ++ join "{0}" (y :: l)).
  change (join arg (x :: y :: l)) with (x ++ arg ++ join arg (y :: l)).
  rewrite (format_plain_prefix _ _ _ _ Hx).
  assert (Hfield : format_from arg Text num ("{0}" ++ join "{0}" (y :: l))
                   = emit arg (format_from arg Text Manual (join "{0}" (y :: l))))
    by (destruct Hnum as [-> | ->]; reflexivity).
  rewrite Hfield, (IH Manual (or_intror eq_refl)). reflexivity.
Qed.

(** X10.  In a template made of texts without braces with the
    placeholder [{0}] between each two, the placeholder may stand any
    number of times: every occurrence is replaced by the values with a
    slash between each two.  A template without any brace comes back as
    it is, the values unused. *)
Theorem formatted_repeats :
  (forall segs values,
     Forall (fun s => plain s = true) segs ->
     ChallengeTarget.formatted (ChallengeTarget.mk (String.concat "{0}" segs) values)
     = Some (inr (String.concat (Spec.slashJoined values) segs)))
  /\ (forall template values,
        plain template = true ->
        ChallengeTarget.formatted (ChallengeTarget.mk template values)
        = Some (inr template)).
Proof.
  split.
  - intros segs values H. unfold ChallengeTarget.formatted, format.
    cbn [ChallengeTarget.type ChallengeTarget.values].
    rewrite join_slashJoined.
    now apply (format_repeated (Spec.slashJoined values) segs Unset); [left|].
  - intros template values H. unfold ChallengeTarget.formatted, format.
    now apply format_plain.
Qed.

Lemma formatted_repeats_witness :
  ChallengeTarget.formatted
    (ChallengeTarget.mk "Defeat {0} enemies in {0} sec." [60; 90])
  = Some (inr "Defeat 60/90 enemies in 60/90 sec.").
Proof.
  apply (proj1 formatted_repeats ["Defeat "; " enemies in "; " sec."] [60%Z; 90%Z]).
  repeat constructor.
Defined.

(** X11.  Two automatic placeholders ask for a second argument and
    raise [IndexError], whatever follows the second one; a template
    that mixes [{}] and [{0}] raises [ValueError]. *)
Theorem formatted_two_placeholders (pre mid post : string) (values : list Z) :
  plain pre = true -> plain mid = true ->
  ChallengeTarget.formatted (ChallengeTarget.mk (pre ++ "{}" ++ mid ++ "{}" ++ post) values)
  = Some (inl IndexError)
  /\ ChallengeTarget.formatted
       (ChallengeTarget.mk (pre ++ "{}" ++ mid ++ "{0}" ++ post) values)
     = Some (inl ValueError)
  /\ ChallengeTarget.formatted
       (ChallengeTarget.mk (pre ++ "{0}" ++ mid ++ "{}" ++ post) values)
     = Some (inl ValueError).
Proof.
  intros Hpre Hmid. unfold ChallengeTarget.formatted, format.
  cbn [ChallengeTarget.type ChallengeTarget.values].
  set (arg := join "/" (map str_of_int values)).
  rewrite !(format_plain_prefix _ _ _ _ Hpre).
  assert (Hauto : forall rest,
            format_from arg Text Unset ("{}" ++ rest)
            = emit arg (format_from arg Text (Auto 1) rest)) by reflexivity.
  assert (Hmanual : forall rest,
            format_from arg Text Unset ("{0}" ++ rest)
            = emit arg (format_from arg Text Manual rest)) by reflexivity.
  rewrite !Hauto, Hmanual, !(format_plain_prefix _ _ _ _ Hmid).
  repeat split.
Qed.

Lemma formatted_two_placeholders_witness :
  ChallengeTarget.formatted (ChallengeTarget.mk "Defeat {} enemies in {} sec." [60; 90])
  = Some (inl IndexError).
Proof.
  apply (formatted_two_placeholders "Defeat " " enemies in " " sec." [60%Z; 90%Z]);
    reflexivity.
Defined.

(** X12.  A brace on its own is an error and a doubled brace is a
    brace: a closing brace that no closing brace follows, or an opening
    brace at the end, raises [ValueError]; [{{] and [}}] come out as [{]
    and [}], and what they enclose is no placeholder. *)
Theorem formatted_braces (pre : string) (values : list Z) :
  plain pre = true ->
  (forall post,
     (forall post', post <> String "}" post') ->
     ChallengeTarget.formatted (ChallengeTarget.mk (pre ++ "}" ++ post) values)
     = Some (inl ValueError))
  /\ ChallengeTarget.formatted (ChallengeTarget.mk (pre ++ "{") values)
     = Some (inl ValueError)
  /\ (forall mid post,
        plain mid = true -> plain post = true ->
        ChallengeTarget.formatted
          (ChallengeTarget.mk (pre ++ "{{" ++ mid ++ "}}" ++ post) values)
        = Some (inr (pre ++ "{" ++ mid ++ "}" ++ post))).
Proof.
  intros Hpre. unfold ChallengeTarget.formatted, format.
  cbn [ChallengeTarget.type ChallengeTarget.values].
  set (arg := join "/" (map str_of_int values)).
  split; [|split].
  - intros post Hpost. rewrite (format_plain_prefix _ _ _ _ Hpre).
    destruct post as [|c post']; [reflexivity|]. simpl.
    destruct (Ascii.eqb_spec c "}") as [->|Hc]; [now destruct (Hpost post') | reflexivity].
  - now rewrite (format_plain_prefix _ _ _ _ Hpre).
  - intros mid post Hmid Hpost. rewrite (format_plain_prefix _ _ _ _ Hpre).
    assert (Ho : forall rest num,
              format_from arg Text num ("{{" ++ rest)
              = emit "{" (format_from arg Text num rest)) by reflexivity.
    assert (Hc : forall rest num,
              format_from arg Text num ("}}" ++ rest)
              = emit "}" (format_from arg Text num rest)) by reflexivity.
    rewrite Ho, (format_plain_prefix _ _ _ _ Hmid), Hc, (format_plain _ _ _ Hpost).
    reflexivity.
Qed.

Lemma formatted_braces_witness :
  ChallengeTarget.formatted (ChallengeTarget.mk "Score {{x}} or more" [5])
  = Some (inr "Score {x} or more").
Proof.
  apply (proj2 (proj2 (formatted_braces "Score " [5%Z] eq_refl)) "x" " or more");
    reflexivity.
Defined.

Lemma field_name_scan (arg name acc rest : string) (num : numbering) :
  bare_name name = true ->
  format_from arg (Field acc) num (name ++ String "}" rest)
  = match get_field arg num (acc ++ name) with
    | inr (text, num') => emit text (format_from arg Text num' rest)
    | inl e => Some (inl e)
    end.
Proof.
  revert acc; induction name as [|c name IH]; intros acc H.
  - rewrite append_nil_r. reflexivity.
  - simpl in H. apply andb_prop in H as [Hc Hname]. apply andb_prop in Hc as [Hc Hclose].
    apply andb_prop in Hc as [Hfrag Hopen]. apply negb_true_iff in Hopen, Hclose.
    cbn [append format_from]. rewrite Hclose, Hopen, Hfrag.
    rewrite (IH _ Hname), append_assoc. reflexivity.
Qed.

Lemma named_field (arg pre name post : string) :
  plain pre = true -> name <> "" -> bare_name name = true ->
  format (pre ++ "{" ++ name ++ "}" ++ post) arg
  = match get_field arg Unset name with
    | inr (text, num') => emit pre (emit text (format_from arg Text num' post))
    | inl e => Some (inl e)
    end.
Proof.
  intros Hpre Hne Hname. unfold format. rewrite (format_plain_prefix _ _ _ _ Hpre).
  destruct name as [|c name]; [contradiction|].
  pose proof Hname as Hbare. simpl in Hname.
  apply andb_prop in Hname as [Hc Hrest]. apply andb_prop in Hc as [Hc Hclose].
  apply andb_prop in Hc as [Hfrag Hopen]. apply negb_true_iff in Hopen, Hclose.
  assert (Hstep : forall rest,
            format_from arg Text Unset ("{" ++ rest) = format_from arg Open Unset rest)
    by reflexivity.
  rewrite Hstep. cbn [append format_from]. rewrite Hopen, Hclose, Hfrag.
  rewrite (field_name_scan _ _ _ _ _ Hrest).
  change (String c "" ++ name) with (String c name).
  destruct (get_field arg Unset (String c name)) as [e|[text num']]; reflexivity.
Qed.

(** X13.  A placeholder that names anything but argument 0 raises: a
    name that is not a number is looked up among the keyword arguments,
    of which there are none, and gives [KeyError]; a number above 0 is
    past the one positional argument and gives [IndexError]. *)
Theorem formatted_other_fields (pre name post : string) (values : list Z) :
  plain pre = true -> name <> "" -> bare_name name = true ->
  (forallb_str is_digit name = false ->
   ChallengeTarget.formatted (ChallengeTarget.mk (pre ++ "{" ++ name ++ "}" ++ post) values)
   = Some (inl KeyError))
  /\ (forallb_str is_digit name = true ->
      (0 < digits_value 0 name <= PY_SSIZE_T_MAX)%Z ->
      ChallengeTarget.formatted
        (ChallengeTarget.mk (pre ++ "{" ++ name ++ "}" ++ post) values)
      = Some (inl IndexError)).
Proof.
  intros Hpre Hne Hname. unfold ChallengeTarget.formatted.
  cbn [ChallengeTarget.type ChallengeTarget.values].
  rewrite (named_field _ _ _ _ Hpre Hne Hname). unfold get_field.
  destruct name as [|c name]; [contradiction|]. split.
  - intros Hd. now rewrite Hd.
  - intros Hd [Hlo Hhi]. rewrite Hd.
    replace (PY_SSIZE_T_MAX <? digits_value 0 (String c name))%Z with false
      by (symmetry; apply Z.ltb_ge; exact Hhi).
    replace (digits_value 0 (String c name) =? 0)%Z with false
      by (symmetry; apply Z.eqb_neq; lia).
    reflexivity.
Qed.

Lemma formatted_other_fields_witness :
  ChallengeTarget.formatted (ChallengeTarget.mk "Defeat all enemies within {time}s" [90])
  = Some (inl KeyError).
Proof.
  apply (proj1 (formatted_other_fields "Defeat all enemies within " "time" "s" [90%Z]
                  eq_refl (fun H => eq_ind "time" (fun s => match s with
                                                          | EmptyString => False
                                                          | _ => True
                                                          end) I "" H)
                  eq_refl)).
  reflexivity.
Defined.

End FormatEdges.
